(** * enova365 export tools: row normalisation and keyed diff

  Shallow embedding of
  - [src/enova365/01_converter_utf16_to_utf8.py] (the Normalizer), and
  - [src/enova365/02_compare_two_txt_files.py]   (the keyed Differ),
  followed by the properties of the row parser, the record set and the
  three-way difference.

  A Python [str] is a sequence of Unicode code points; it is modelled as
  a list of code points ([N]).  A [dict] keyed by [str] is a [gmap], a
  [set] of keys is a [gset]. *)

From Stdlib Require Import NArith Ascii String List.
From stdpp Require Import base option list gmap.

Local Open Scope N_scope.

(** ** Text *)

Module Text.

Definition char := N.
Definition str := list N.

(** Code points of an ASCII literal. *)
Definition lit (s : string) : str :=
  List.map N_of_ascii (list_ascii_of_string s).

Definition TAB : char := 9.
Definition LF : char := 10.
Definition SPACE : char := 32.
Definition QUOTE : char := 34.
(** Latin small letter l with stroke, U+0142 *)
Definition L_STROKE : char := 322.

(** [str.isspace] on one code point, which is also the class [\s] of a
    [str] pattern in [re]: both go through CPython's
    [_PyUnicode_IsWhitespace]. *)
Definition isspace (c : char) : bool :=
  ((9 <=? c) && (c <=? 13))
  || ((28 <=? c) && (c <=? 32))
  || (c =? 133) || (c =? 160) || (c =? 5760)
  || ((8192 <=? c) && (c <=? 8202))
  || (c =? 8232) || (c =? 8233) || (c =? 8239) || (c =? 8287)
  || (c =? 12288).

(** [s.lstrip()] *)
Fixpoint lstrip (s : str) : str :=
  match s with
  | [] => []
  | c :: r => if isspace c then lstrip r else s
  end.

(** [s.rstrip()] *)
Fixpoint rstrip (s : str) : str :=
  match s with
  | [] => []
  | c :: r =>
      match rstrip r with
      | [] => if isspace c then [] else [c]
      | r' => c :: r'
      end
  end.

(** [s.strip()] *)
Definition strip (s : str) : str := rstrip (lstrip s).

(** [re.sub] of the pattern [\s+] by the empty string: every maximal
    run of whitespace is deleted, so exactly the whitespace characters
    go. *)
Fixpoint sub_ws (s : str) : str :=
  match s with
  | [] => []
  | c :: r => if isspace c then sub_ws r else c :: sub_ws r
  end.

(** [s.replace] of the double quote by the empty string. *)
Fixpoint unquote (s : str) : str :=
  match s with
  | [] => []
  | c :: r => if c =? QUOTE then unquote r else c :: unquote r
  end.

(** Put [c] in front of the first field of a field list. *)
Definition cons_head (c : char) (fs : list str) : list str :=
  match fs with
  | [] => [[c]]
  | f :: fs' => (c :: f) :: fs'
  end.

(** [s.split] on the tab: every tab separates, empty fields are kept. *)
Fixpoint split_tab (s : str) : list str :=
  match s with
  | [] => [[]]
  | c :: r => if c =? TAB then [] :: split_tab r
              else cons_head c (split_tab r)
  end.

Definition starts_with_space (s : str) : bool :=
  match s with
  | c :: _ => c =? SPACE
  | [] => false
  end.

(** [re.split(r'\t| {2,}', s)], scanning left to right.  [in_run] says
    that the scan is inside a delimiter of two or more spaces: the
    quantifier is greedy, so the delimiter takes every space that
    follows.  A single space is part of a field. *)
Fixpoint split_from (in_run : bool) (s : str) : list str :=
  match s with
  | [] => [[]]
  | c :: r =>
      if in_run && (c =? SPACE) then split_from true r
      else if c =? TAB then [] :: split_from false r
      else if (c =? SPACE) && starts_with_space r
           then [] :: split_from true r
      else cons_head c (split_from false r)
  end.

Definition re_split (s : str) : list str := split_from false s.

(** The tab's [join] of the fields. *)
Fixpoint join_tab (fs : list str) : str :=
  match fs with
  | [] => []
  | [f] => f
  | f :: fs' => f ++ TAB :: join_tab fs'
  end.

End Text.

Import Text.

(** ** Effects: exceptions, logging, console and process exit

  Both scripts talk to the file system, the logger and the console and
  use [try]/[except].  A computation is a trace of events together with
  the way it ended. *)

Module Eff.

(** The exception classes the handlers of the two scripts tell apart.
    [FileNotFoundError] is an [OSError]; the two Unicode errors are
    [ValueError]s; everything is an [Exception]. *)
Inductive exn :=
| FileNotFoundError | OSError
| ValueError | UnicodeDecodeError | UnicodeEncodeError
| KeyError | OtherException.

Definition is_OSError (e : exn) : bool :=
  match e with FileNotFoundError | OSError => true | _ => false end.

Definition is_ValueError (e : exn) : bool :=
  match e with
  | ValueError | UnicodeDecodeError | UnicodeEncodeError => true
  | _ => false
  end.

Definition is_FileNotFoundError (e : exn) : bool :=
  match e with FileNotFoundError => true | _ => false end.

Definition is_UnicodeDecodeError (e : exn) : bool :=
  match e with UnicodeDecodeError => true | _ => false end.

Inductive level := DEBUG | INFO | WARNING | ERROR | CRITICAL.

#[global] Instance exn_eq_dec : EqDecision exn.
Proof. solve_decision. Defined.

#[global] Instance level_eq_dec : EqDecision level.
Proof. solve_decision. Defined.

(** The log messages of the two scripts, by the call that emits them. *)
Inductive message :=
(* 01_converter_utf16_to_utf8.py *)
| MsgOpened (path : str)
| MsgNotUtf16 (path : str)
| MsgLinesRead (n : nat)
| MsgSaved
| MsgWriteError (e : exn)
| MsgCountsDiffer (read written : nat)
| MsgNotWrittenLines
| MsgSkippedLine (idx : nat) (line : str)
| MsgFileOperation (e : exn)
(* 02_compare_two_txt_files.py *)
| MsgDetectFailed (e : exn)
| MsgDetected (encoding path : str)
| MsgReadError (e : exn)
| MsgFileRead (path : str)
| MsgFileSkipped (path : str) (n : nat)
| MsgCompareDone
(* both *)
| MsgException (e : exn)
| MsgUnexpected (e : exn).

(** [WriteLines] is a write that completes: the output file is opened and
    holds the lines when it is closed.  [WriteFailed] is a write that
    raises: the file may not exist, be empty, or hold a part of the
    lines. *)
Inductive event :=
| Log (lv : level) (msg : message)
| WriteLines (lines : list str)
| WriteFailed (e : exn)
| Print (title : option str) (rows : list (list str)).

(** A computation ends by returning, by raising, or in [sys.exit]. *)
Inductive outcome (A : Type) :=
| Done (a : A)
| Raised (e : exn)
| Exited (code : N).
Arguments Done {A} a.
Arguments Raised {A} e.
Arguments Exited {A} code.

Definition M (A : Type) : Type := list event * outcome A.

Definition ret {A} (a : A) : M A := ([], Done a).
Definition raise {A} (e : exn) : M A := ([], Raised e).
Definition sys_exit {A} (code : N) : M A := ([], Exited code).
Definition emit (ev : event) : M unit := ([ev], Done tt).

Definition bind {A B} (m : M A) (k : A → M B) : M B :=
  match m with
  | (t, Done a) => let '(t', r) := k a in (t ++ t', r)
  | (t, Raised e) => (t, Raised e)
  | (t, Exited c) => (t, Exited c)
  end.

(** An [except] clause: the classes it names and its body. *)
Definition clause (A : Type) : Type := (exn → bool) * (exn → M A).

(** The first clause whose classes contain [e]. *)
Fixpoint select {A} (clauses : list (clause A)) (e : exn)
  : option (exn → M A) :=
  match clauses with
  | [] => None
  | (classes, h) :: rest => if classes e then Some h else select rest e
  end.

(** [try: m  except ...: ...  except ...: ...]; an exception no clause
    names and [sys.exit] pass through, and so does whatever the chosen
    clause itself raises. *)
Definition try_except {A} (m : M A) (clauses : list (clause A)) : M A :=
  match m with
  | (t, Raised e) =>
      match select clauses e with
      | Some h => let '(t', r) := h e in (t ++ t', r)
      | None => (t, Raised e)
      end
  | _ => m
  end.

(** The class [Exception]. *)
Definition is_Exception (e : exn) : bool := true.

(** A call of [logging.<level>] under [configure_logging verbose]: the
    threshold is [DEBUG] when [verbose], [INFO] otherwise. *)
Definition log (verbose : bool) (lv : level) (msg : message) : M unit :=
  match lv with
  | DEBUG => if verbose then emit (Log lv msg) else ret tt
  | _ => emit (Log lv msg)
  end.

Fixpoint for_each {A} (f : A → M unit) (l : list A) : M unit :=
  match l with
  | [] => ret tt
  | x :: l' => bind (f x) (λ _, for_each f l')
  end.

Definition trace {A} (m : M A) : list event := m.1.
Definition result_of {A} (m : M A) : outcome A := m.2.

(** The exit status that the outcome of the main call [m] asks for.  What
    the interpreter does after the call (it flushes the standard output,
    and a failure there changes the status) is not part of it. *)
Definition exit_status {A} (m : M A) : N :=
  match m.2 with
  | Done _ => 0
  | Raised _ => 1
  | Exited c => c
  end.

Definition logged_at (lv : level) (ev : event) : bool :=
  match ev with
  | Log lv' _ => bool_decide (lv' = lv)
  | _ => false
  end.

Definition no_critical (t : list event) : Prop :=
  existsb (logged_at CRITICAL) t = false.

End Eff.

Import Eff.

Declare Scope eff_scope.
Delimit Scope eff_scope with eff.
Notation "'let*' x ':=' m 'in' k" := (Eff.bind m (λ x, k))
(at level 10, x pattern, m at level 100, k at level 200) : eff_scope.
Notation "m ;; k" := (Eff.bind m (λ _, k))
(at level 100, k at level 200, right associativity) : eff_scope.

(** ** The Normalizer: [01_converter_utf16_to_utf8.py] *)

Module Normalizer.

(** The three values [process_file_content] builds; [table] holds the
    rows given to [PrettyTable.add_row], in order. *)
Record result := mk_result {
  cleaned_content : list str;
  skipped_lines : list str;
  table : list (list str)
}.

(** The expected header of [convert_to_utf8], already stripped. *)
Definition expected_header : str :=
  strip (lit "Kod" ++ TAB :: lit "Nazwisko" ++ TAB :: lit "Imie" ++ TAB
         :: (lit "Dzia" ++ [L_STROKE]) ++ TAB :: lit "Zatrudnienie").

Definition is_header (header line_cleaned : str) : bool :=
  bool_decide (sub_ws line_cleaned = sub_ws header).

(** The fields of a stripped line: split, then quotes removed from each
    field. *)
Definition fields_of (line_cleaned : str) : list str :=
  List.map unquote (re_split line_cleaned).

(** One iteration of the [for line in content] loop. *)
Definition process_line (header : str) (acc : result) (line : str) : result :=
  let line_cleaned := strip line in
  if is_header header line_cleaned then
    mk_result (cleaned_content acc)
              (skipped_lines acc ++ [line_cleaned])
              (table acc)
  else
    let fields := fields_of line_cleaned in
    if (length fields =? 5)%nat then
      mk_result (cleaned_content acc ++ [join_tab fields ++ [LF]])
                (skipped_lines acc)
                (table acc ++ [fields])
    else
      mk_result (cleaned_content acc)
                (skipped_lines acc ++ [line_cleaned])
                (table acc).

Definition process_from (header : str) (acc : result) (content : list str)
  : result :=
  fold_left (process_line header) content acc.

Definition process_file_content (content : list str) (header : str)
  : result :=
  process_from header (mk_result [] [] []) content.

(** What [convert_to_utf8] meets outside the program: the input path
    on disk, the outcome of reading it as UTF-16 ([open] then
    [readlines]), of writing the output file, and of [print]. *)
Record world := mk_world {
  path_exists : bool;
  getsize : N;
  readlines_utf16 : exn + list str;
  write_error : option exn;
  print_error : option exn
}.

Local Open Scope eff_scope.

Definition validate_file (w : world) : M unit :=
  if negb (path_exists w) then raise FileNotFoundError
  else if getsize w =? 0 then raise ValueError
  else ret tt.

(** [print(table)] *)
Definition print_table (w : world) (rows : list (list str)) : M unit :=
  match print_error w with
  | Some e => raise e
  | None => emit (Print None rows)
  end.

(** The [if len(content) != len(cleaned_content)] block. *)
Definition report_discrepancy (verbose : bool) (content : list str)
    (r : result) : M unit :=
  if negb (length content =? length (cleaned_content r))%nat then
    log verbose WARNING
        (MsgCountsDiffer (length content) (length (cleaned_content r))) ;;
    log verbose DEBUG MsgNotWrittenLines ;;
    for_each (λ p : nat * str, log verbose DEBUG (MsgSkippedLine p.1 p.2))
             (zip (seq 1 (length (skipped_lines r))) (skipped_lines r))
  else ret tt.

(** The part of [convert_to_utf8] after the lines are read. *)
Definition convert_content (w : world) (verbose show_table : bool)
    (content : list str) : M unit :=
  let r := process_file_content content expected_header in
  log verbose DEBUG (MsgLinesRead (length content)) ;;
  match write_error w with
  | Some e =>
      emit (WriteFailed e) ;;
      if is_OSError e then log verbose ERROR (MsgWriteError e)
      else raise e
  | None =>
      emit (WriteLines (cleaned_content r)) ;;
      log verbose INFO MsgSaved ;;
      report_discrepancy verbose content r ;;
      if show_table then print_table w (table r) else ret tt
  end.

Definition convert_to_utf8 (w : world) (input_file : str)
    (verbose show_table : bool) : M unit :=
  try_except
    (validate_file w ;;
     match readlines_utf16 w with
     | inl e =>
         if is_UnicodeDecodeError e
         then log verbose ERROR (MsgNotUtf16 input_file)
         else raise e
     | inr content =>
         log verbose INFO (MsgOpened input_file) ;;
         convert_content w verbose show_table content
     end)
    [ (λ e, is_FileNotFoundError e || is_ValueError e,
       λ e, log verbose ERROR (MsgException e));
      (is_OSError,
       λ e, log verbose ERROR (MsgFileOperation e));
      (is_Exception,
       λ e, log verbose CRITICAL (MsgUnexpected e)) ].

(** The event by which a discrepancy is reported: the warning that the
    numbers of lines read and written differ. *)
Definition is_discrepancy (ev : event) : bool :=
  match ev with
  | Log WARNING (MsgCountsDiffer _ _) => true
  | _ => false
  end.

Definition reports_discrepancy (m : M unit) : bool :=
  existsb is_discrepancy (trace m).

End Normalizer.

(** ** The keyed Differ: [02_compare_two_txt_files.py] *)

Module Differ.

(** The header literal [read_file] compares every stripped line with. *)
Definition HEADER : str :=
  lit "Kod" ++ TAB :: lit "Nazwisko" ++ TAB :: lit "Imie" ++ TAB
  :: (lit "Dzia" ++ [L_STROKE]) ++ TAB :: lit "Zatrudnienie".

(** [data] and [skipped_lines] of [read_file]. *)
Record records := mk_records {
  data : gmap str (list str);
  skipped_lines : list str
}.

(** One iteration of the [for line in content] loop.  The pattern of
    five names is the test [len(fields) == 5] followed by the unpacking
    assignment. *)
Definition read_line (acc : records) (line : str) : records :=
  if bool_decide (strip line = HEADER) then
    mk_records (data acc) (skipped_lines acc ++ [strip line])
  else
    match split_tab (strip line) with
    | [kod; nazwisko; imie; dzial; zatrudnienie] =>
        mk_records (<[kod := [nazwisko; imie; dzial; zatrudnienie]]> (data acc))
                   (skipped_lines acc)
    | _ =>
        mk_records (data acc) (skipped_lines acc ++ [strip line])
    end.

Definition read_from (acc : records) (content : list str) : records :=
  fold_left read_line content acc.

(** The body of [read_file] once the lines are read. *)
Definition read_lines (content : list str) : records :=
  read_from (mk_records ∅ []) content.

(** An entry of a result list: [(kod, fields, is_active)]. *)
Definition entry : Type := str * list str * bool.

Definition entry_key (e : entry) : str := e.1.1.

(** [content[kod]]; [None] is Python's [KeyError]. *)
Definition getitem (content : gmap str (list str)) (kod : str)
  : option (list str) := content !! kod.

(** The three list comprehensions; a set is enumerated in the order of
    [elements], which stands for Python's unspecified set order. *)
Definition find_differences (content1 content2 : gmap str (list str))
  : option (list entry * list entry * list entry) :=
  let set1 : gset str := dom content1 in
  let set2 : gset str := dom content2 in
  unique_to_file1 ←
    mapM (λ kod, v ← getitem content1 kod; Some (kod, v, false))
         (elements (set1 ∖ set2));
  unique_to_file2 ←
    mapM (λ kod, v ← getitem content2 kod; Some (kod, v, true))
         (elements (set2 ∖ set1));
  modified_rows ←
    mapM (λ kod, v ← getitem content1 kod; Some (kod, v, true))
         (filter (λ kod, getitem content1 kod ≠ getitem content2 kod)
                 (elements (set1 ∩ set2)));
  Some (unique_to_file1, unique_to_file2, modified_rows).

(** What [compare_files] meets outside the program, per path: the
    file on disk, the answer of [from_path(path).best()] (an encoding
    name, or nothing), the outcome of [open] with [readlines] under an
    encoding, and the outcome of [print]. *)
Record world := mk_world {
  path_exists : str → bool;
  getsize : str → N;
  best_encoding : str → exn + option str;
  readlines : str → str → exn + list str;
  print_error : option exn
}.

Local Open Scope eff_scope.

Definition validate_file (w : world) (input_file : str) : M unit :=
  if negb (path_exists w input_file) then raise FileNotFoundError
  else if getsize w input_file =? 0 then raise ValueError
  else ret tt.

(** The exception [validate_file] raises for a path, if any. *)
Definition validation (w : world) (input_file : str) : option exn :=
  if negb (path_exists w input_file) then Some FileNotFoundError
  else if getsize w input_file =? 0 then Some ValueError
  else None.

(** The exception met while the encoding of a path is detected or its
    lines are read, if any. *)
Definition read_failure (w : world) (file_path : str) : option exn :=
  match best_encoding w file_path with
  | inl e => Some e
  | inr None => Some ValueError
  | inr (Some encoding) =>
      match readlines w file_path encoding with
      | inl e => Some e
      | inr _ => None
      end
  end.

Definition detect_encoding (w : world) (verbose : bool) (file_path : str)
  : M str :=
  try_except
    (match best_encoding w file_path with
     | inl e => raise e
     | inr None => raise ValueError
     | inr (Some encoding) => ret encoding
     end)
    [ (is_Exception,
       λ e, log verbose ERROR (MsgDetectFailed e) ;; raise e) ].

Definition read_file (w : world) (verbose : bool) (file_path : str)
  : M records :=
  try_except
    (let* encoding := detect_encoding w verbose file_path in
     log verbose INFO (MsgDetected encoding file_path) ;;
     match readlines w file_path encoding with
     | inl e => raise e
     | inr content => ret (read_lines content)
     end)
    [ (is_Exception,
       λ e, log verbose ERROR (MsgReadError e) ;; ret (mk_records ∅ [])) ].

(** The row [[kod] + fields + [is_active]] of [display_content]. *)
Definition display_row (e : entry) : list str :=
  match e with
  | (kod, fields, is_active) =>
      [kod] ++ fields ++ [if is_active then lit "True" else lit "False"]
  end.

Definition display_content (w : world) (content : list entry) (title : str)
  : M unit :=
  match print_error w with
  | Some e => raise e
  | None => emit (Print (Some title) (List.map display_row content))
  end.

Definition is_nonempty {A} (l : list A) : bool :=
  match l with [] => false | _ => true end.

(** The [if show_tables] block of [compare_files]. *)
Definition show_results (w : world) (show_tables : bool)
    (unique_to_file1 unique_to_file2 modified_rows : list entry) : M unit :=
  if show_tables then
    (if is_nonempty unique_to_file1
     then display_content w unique_to_file1 (lit "Unikalne wiersze - Plik 1")
     else ret tt) ;;
    (if is_nonempty unique_to_file2
     then display_content w unique_to_file2 (lit "Unikalne wiersze - Plik 2")
     else ret tt) ;;
    (if is_nonempty modified_rows
     then display_content w modified_rows (lit "Zmodyfikowane wiersze")
     else ret tt)
  else ret tt.

Definition compare_files (w : world) (file1 file2 : str)
    (verbose show_tables : bool) : M unit :=
  try_except
    (validate_file w file1 ;;
     validate_file w file2 ;;
     let* r1 := read_file w verbose file1 in
     let* r2 := read_file w verbose file2 in
     log verbose INFO (MsgFileRead file1) ;;
     log verbose INFO (MsgFileRead file2) ;;
     log verbose DEBUG (MsgFileSkipped file1 (length (skipped_lines r1))) ;;
     log verbose DEBUG (MsgFileSkipped file2 (length (skipped_lines r2))) ;;
     let* (unique_to_file1, unique_to_file2, modified_rows) :=
       match find_differences (data r1) (data r2) with
       | Some d => ret d
       | None => raise KeyError
       end in
     show_results w show_tables unique_to_file1 unique_to_file2
       modified_rows ;;
     log verbose INFO MsgCompareDone)
    [ (λ e, is_FileNotFoundError e || is_ValueError e,
       λ e, log verbose ERROR (MsgException e) ;; sys_exit 1);
      (is_Exception,
       λ e, log verbose CRITICAL (MsgUnexpected e) ;; sys_exit 1) ].

End Differ.

(** ** Derived notions used in the statements *)

Module Rows.

(** The Normalizer accepts a line: it is no header match and has five
    fields. *)
Definition accepts (header line : str) : bool :=
  negb (Normalizer.is_header header (strip line))
  && (length (Normalizer.fields_of (strip line)) =? 5)%nat.

(** The line the Normalizer writes for an accepted line. *)
Definition output_line (line : str) : str :=
  join_tab (Normalizer.fields_of (strip line)) ++ [LF].

(** The Differ's view of a line: the key and the value it stores, if
    any. *)
Definition parse_row (line : str) : option (str * list str) :=
  if bool_decide (strip line = Differ.HEADER) then None
  else match split_tab (strip line) with
       | [kod; nazwisko; imie; dzial; zatrudnienie] =>
           Some (kod, [nazwisko; imie; dzial; zatrudnienie])
       | _ => None
       end.

(** The Differ routes a line to its skipped list. *)
Definition skips (line : str) : bool :=
  match parse_row line with
  | None => true
  | Some _ => false
  end.

Definition store (m : gmap str (list str)) (row : str * list str)
  : gmap str (list str) := <[row.1 := row.2]> m.

(** A stripped line with every delimiter of the Normalizer replaced by
    one tab. *)
Definition retab (in_run : bool) (s : str) : str :=
  join_tab (split_from in_run s).

Definition quote_free (s : str) : Prop := QUOTE ∉ s.

(** The first character, if any, is no whitespace. *)
Definition head_ok (s : str) : Prop :=
  match s with
  | [] => True
  | c :: _ => isspace c = false
  end.

(** The last character, if any, is no whitespace. *)
Definition last_ok (s : str) : Prop :=
  s = [] ∨ ∃ s' c, s = s' ++ [c] ∧ isspace c = false.

Definition keys (l : list Differ.entry) : list str :=
  List.map Differ.entry_key l.

End Rows.

Import Rows.

(** ** Sample inputs: the scenarios of the specification and a few lines
  that tell the two parsers apart *)

Module Samples.

(** The header, as a line of a file. *)
Definition header_line : str := Differ.HEADER ++ [LF].

(** The header with a space before the first tab. *)
Definition spaced_header : str :=
  lit "Kod " ++ TAB :: lit "Nazwisko" ++ TAB :: lit "Imie" ++ TAB
  :: (lit "Dzia" ++ [L_STROKE]) ++ TAB :: lit "Zatrudnienie" ++ [LF].

Definition tabbed (f1 f2 f3 f4 f5 : str) : str :=
  f1 ++ TAB :: f2 ++ TAB :: f3 ++ TAB :: f4 ++ TAB :: f5 ++ [LF].

Definition quoted (s : str) : str := QUOTE :: s ++ [QUOTE].

Definition dev_line : str :=
  tabbed (lit "001") (lit "Nowak") (lit "Jan") (lit "IT") (lit "Dev").

Definition manager_line : str :=
  tabbed (lit "001") (lit "Nowak") (lit "Jan") (lit "IT") (lit "Manager").

Definition other_line : str :=
  tabbed (lit "002") (lit "Kowalska") (lit "Anna") (lit "HR") (lit "Lead").



(** Four fields between two spaces in front and a space and a line feed
    behind. *)
Definition padded_short_line : str :=
  lit "  001" ++ TAB :: lit "Nowak" ++ TAB :: lit "Jan" ++ TAB :: lit "IT "
  ++ [LF].

(** Every field in double quotes. *)
Definition all_quoted_line : str :=
  tabbed (quoted (lit "001")) (quoted (lit "Nowak")) (quoted (lit "Jan"))
         (quoted (lit "IT")) (quoted (lit "Dev")).

(** The second field in double quotes. *)
Definition quoted_line : str :=
  tabbed (lit "001") (quoted (lit "Nowak")) (lit "Jan") (lit "IT")
         (lit "Dev").

(** Four tab-separated fields, the first one with a double quote
    between two single spaces. *)
Definition gap_line : str :=
  (lit "a " ++ QUOTE :: lit " b") ++ TAB :: lit "c" ++ TAB :: lit "d"
  ++ TAB :: lit "e" ++ [LF].

(** The first field is a pair of double quotes. *)
Definition empty_code_line : str :=
  tabbed (quoted []) (lit "Nowak") (lit "Jan") (lit "IT") (lit "Dev").

(** A file that holds a byte order mark and nothing else: two bytes, no
    line. *)
Definition bom_only : Normalizer.world :=
  Normalizer.mk_world true 2 (inr []) None None.

(** A file with the header and one row. *)
Definition small_export : Normalizer.world :=
  Normalizer.mk_world true 200 (inr [header_line; dev_line]) None None.

(** Two files on disk that cannot be decoded under the detected
    encoding. *)
Definition garbled : Differ.world :=
  Differ.mk_world (λ _, true) (λ _, 64) (λ _, inr (Some (lit "utf_8")))
    (λ _ _, inl UnicodeDecodeError) None.

(** Of all paths only [a.txt] exists; it holds the header and the row of
    [dev_line]. *)
Definition second_missing : Differ.world :=
  Differ.mk_world (λ p, bool_decide (p = lit "a.txt")) (λ _, 64)
    (λ _, inr (Some (lit "utf_8"))) (λ _ _, inr [header_line; dev_line]) None.

(** Two exports that differ: [a.txt] holds the header and two rows, every
    other path the header and one row with the code of the first. *)
Definition two_exports : Differ.world :=
  Differ.mk_world (λ _, true) (λ _, 64) (λ _, inr (Some (lit "utf_8")))
    (λ p _, if bool_decide (p = lit "a.txt")
            then inr [header_line; dev_line; other_line]
            else inr [header_line; manager_line])
    None.

(** The same two exports on a console that refuses what is printed. *)
Definition broken_console : Differ.world :=
  Differ.mk_world (λ _, true) (λ _, 64) (λ _, inr (Some (lit "utf_8")))
    (λ p _, if bool_decide (p = lit "a.txt")
            then inr [header_line; dev_line; other_line]
            else inr [header_line; manager_line])
    (Some OtherException).

(** Scenario 4. *)
Definition file_a : gmap str (list str) :=
  {[ lit "001" := [lit "Nowak"; lit "Jan"; lit "IT"; lit "Dev"] ]}.
Definition file_b : gmap str (list str) :=
  {[ lit "001" := [lit "Nowak"; lit "Jan"; lit "IT"; lit "Manager"] ]}.

(** Scenario 5. *)
Definition file_a2 : gmap str (list str) :=
  <[ lit "002" := [lit "Kowalska"; lit "Anna"; lit "HR"; lit "Lead"] ]>
    file_a.

End Samples.

(** ** The shape of lines and of runs *)

Module Shape.

(** The number of tabs in a string. *)
Definition count_tabs (s : str) : nat :=
  length (List.filter (λ c, c =? TAB) s).

Definition tab_free (s : str) : Prop := TAB ∉ s.

(** A line of whitespace only (or no character at all). *)
Definition blank (s : str) : Prop := Forall (λ c, isspace c = true) s.

(** Two spaces in a row somewhere in the string. *)
Fixpoint double_space (s : str) : bool :=
  match s with
  | [] => false
  | c :: r => ((c =? SPACE) && starts_with_space r) || double_space r
  end.

Definition is_write (ev : event) : bool :=
  match ev with
  | WriteLines _ => true
  | _ => false
  end.

(** The output file is opened for writing. *)
Definition touches_output (ev : event) : bool :=
  match ev with
  | WriteLines _ | WriteFailed _ => true
  | _ => false
  end.

(** The events of [report_discrepancy]: the warning, and in verbose mode
    the list of the skipped lines, numbered from 1. *)
Definition discrepancy_events (verbose : bool) (content : list str)
    (r : Normalizer.result) : list event :=
  if (length content =? length (Normalizer.cleaned_content r))%nat then []
  else
    Log WARNING
        (MsgCountsDiffer (length content)
           (length (Normalizer.cleaned_content r)))
    :: (if verbose
        then Log DEBUG MsgNotWrittenLines
             :: List.map (λ p : nat * str, Log DEBUG (MsgSkippedLine p.1 p.2))
                  (zip (seq 1 (length (Normalizer.skipped_lines r)))
                       (Normalizer.skipped_lines r))
        else []).

(** The input is there, is read as [content], and the output can be
    written. *)
Definition writes_output (w : Normalizer.world) (content : list str) : Prop :=
  Normalizer.path_exists w = true
  ∧ Normalizer.getsize w ≠ 0
  ∧ Normalizer.readlines_utf16 w = inr content
  ∧ Normalizer.write_error w = None.

Definition is_print (ev : event) : bool :=
  match ev with
  | Print _ _ => true
  | _ => false
  end.

(** The tables [compare_files] shows for three result lists: one for
    each list that is not empty, in this order. *)
Definition tables_of (u1 u2 md : list Differ.entry) : list event :=
  (if Differ.is_nonempty u1
   then [Print (Some (lit "Unikalne wiersze - Plik 1"))
           (List.map Differ.display_row u1)]
   else [])
  ++ (if Differ.is_nonempty u2
      then [Print (Some (lit "Unikalne wiersze - Plik 2"))
              (List.map Differ.display_row u2)]
      else [])
  ++ (if Differ.is_nonempty md
      then [Print (Some (lit "Zmodyfikowane wiersze"))
              (List.map Differ.display_row md)]
      else []).

(** The message of the [except] clause of [compare_files] that takes an
    exception. *)
Definition handler_event (e : exn) : event :=
  if is_FileNotFoundError e || is_ValueError e
  then Log ERROR (MsgException e)
  else Log CRITICAL (MsgUnexpected e).

(** A row as the table holds it: five fields without tab and without
    double quote. *)
Definition table_row (row : list str) : Prop :=
  length row = 5%nat ∧ Forall tab_free row ∧ Forall quote_free row.

(** A written line, taken without its line feed, that the Normalizer
    reads back as it is: stripping leaves it unchanged, it has no two
    spaces in a row, and it is not the header modulo whitespace. *)
Definition reads_back (header line : str) : Prop :=
  strip line = line
  ∧ double_space line = false
  ∧ sub_ws line ≠ sub_ws header.

(** Storing a row of five fields as the Differ does: the first field is
    the key, the others are the value, and an earlier value of the key is
    replaced. *)
Definition store_row (m : gmap str (list str)) (row : list str)
  : gmap str (list str) :=
  match row with
  | kod :: fields => <[kod := fields]> m
  | [] => m
  end.

(** The record set of a list of rows stored in order. *)
Definition of_rows (rows : list (list str)) : gmap str (list str) :=
  fold_left store_row rows ∅.

(** A row of the Normalizer's table as the Differ stores it. *)
Definition as_entry (row : list str) : option (str * list str) :=
  match row with
  | kod :: fields => Some (kod, fields)
  | [] => None
  end.

End Shape.

Import Shape.

(** * Properties *)

(** ** The Normalizer's loop, line by line *)

Section NormalizerLoop.

Import Normalizer.
Variable header : str.

Lemma process_from_app acc c1 c2 :
  process_from header acc (c1 ++ c2)
  = process_from header (process_from header acc c1) c2.
Proof. unfold process_from. apply fold_left_app. Qed.

Lemma process_line_accepted acc line :
  accepts header line = true →
  process_line header acc line
  = mk_result (cleaned_content acc ++ [output_line line])
              (skipped_lines acc)
              (table acc ++ [fields_of (strip line)]).
Proof.
  unfold accepts, process_line, output_line.
  intros [Hh Hn]%andb_true_iff.
  apply negb_true_iff in Hh. by rewrite Hh, Hn.
Qed.

Lemma process_line_rejected acc line :
  accepts header line = false →
  process_line header acc line
  = mk_result (cleaned_content acc)
              (skipped_lines acc ++ [strip line])
              (table acc).
Proof.
  unfold accepts, process_line.
  destruct (is_header header (strip line)); [done|].
  simpl. by intros ->.
Qed.

Lemma process_from_spec content : ∀ acc,
  process_from header acc content
  = mk_result
      (cleaned_content acc
         ++ List.map output_line (List.filter (accepts header) content))
      (skipped_lines acc
         ++ List.map strip
              (List.filter (λ l, negb (accepts header l)) content))
      (table acc
         ++ List.map (λ l, fields_of (strip l))
              (List.filter (accepts header) content)).
Proof.
  induction content as [|line content IH]; intros acc.
  - simpl. rewrite !app_nil_r. by destruct acc.
  - change (process_from header acc (line :: content))
      with (process_from header (process_line header acc line) content).
    rewrite IH. simpl.
    destruct (accepts header line) eqn:E.
    + rewrite (process_line_accepted _ _ E). simpl.
      by rewrite <- !app_assoc.
    + rewrite (process_line_rejected _ _ E). simpl.
      by rewrite <- !app_assoc.
Qed.

Lemma cleaned_content_spec content :
  cleaned_content (process_file_content content header)
  = List.map output_line (List.filter (accepts header) content).
Proof. unfold process_file_content. by rewrite process_from_spec. Qed.

Lemma skipped_lines_spec content :
  skipped_lines (process_file_content content header)
  = List.map strip (List.filter (λ l, negb (accepts header l)) content).
Proof. unfold process_file_content. by rewrite process_from_spec. Qed.

Lemma table_spec content :
  table (process_file_content content header)
  = List.map (λ l, fields_of (strip l))
      (List.filter (accepts header) content).
Proof. unfold process_file_content. by rewrite process_from_spec. Qed.

End NormalizerLoop.

(** ** The Differ's loop, line by line *)

Section DifferLoop.

Import Differ.

Lemma read_from_app acc c1 c2 :
  read_from acc (c1 ++ c2) = read_from (read_from acc c1) c2.
Proof. unfold read_from. apply fold_left_app. Qed.

Lemma read_line_row acc line row :
  parse_row line = Some row →
  read_line acc line
  = mk_records (store (data acc) row) (skipped_lines acc).
Proof.
  unfold parse_row, read_line, store.
  case_bool_decide; [done|].
  destruct (split_tab (strip line)) as [|f1 [|f2 [|f3 [|f4 [|f5 [|f6 fs]]]]]];
    try done.
  by intros [= <-].
Qed.

Lemma read_line_skip acc line :
  parse_row line = None →
  read_line acc line
  = mk_records (data acc) (skipped_lines acc ++ [strip line]).
Proof.
  unfold parse_row, read_line.
  case_bool_decide; [done|].
  by destruct (split_tab (strip line)) as [|f1 [|f2 [|f3 [|f4 [|f5 [|f6 fs]]]]]].
Qed.

(** The lines that become rows, in file order. *)
Lemma read_from_spec content : ∀ acc,
  read_from acc content
  = mk_records
      (fold_left store (omap parse_row content) (data acc))
      (skipped_lines acc
         ++ List.map strip
              (List.filter skips content)).
Proof.
  induction content as [|line content IH]; intros acc.
  - simpl. rewrite app_nil_r. by destruct acc.
  - change (read_from acc (line :: content))
      with (read_from (read_line acc line) content).
    rewrite IH. simpl.
    destruct (parse_row line) as [row|] eqn:E.
    + rewrite (read_line_row _ _ _ E). unfold skips. by rewrite E.
    + rewrite (read_line_skip _ _ E). unfold skips. rewrite E.
      simpl. by rewrite <- app_assoc.
Qed.

Lemma data_spec content :
  data (read_lines content) = fold_left store (omap parse_row content) ∅.
Proof. unfold read_lines. by rewrite read_from_spec. Qed.

Lemma skipped_spec content :
  skipped_lines (read_lines content)
  = List.map strip
      (List.filter skips content).
Proof. unfold read_lines. by rewrite read_from_spec. Qed.

(** A key that no later row stores keeps its value. *)
Lemma fold_store_other rows : ∀ (m : gmap str (list str)) k,
  (∀ row, row ∈ rows → row.1 ≠ k) →
  fold_left store rows m !! k = m !! k.
Proof.
  induction rows as [|row rows IH]; intros m k Hk; [done|].
  simpl. rewrite IH.
  - unfold store. apply lookup_insert_ne. apply Hk. by left.
  - intros r Hr. apply Hk. by right.
Qed.

(** Every stored value comes from a row of the list or from the initial
    mapping. *)
Lemma fold_store_lookup rows : ∀ (m : gmap str (list str)) k v,
  fold_left store rows m !! k = Some v →
  (k, v) ∈ rows ∨ m !! k = Some v.
Proof.
  induction rows as [|[k' v'] rows IH]; intros m k v H; [by right|].
  simpl in H. apply IH in H as [H|H].
  - left. by right.
  - unfold store in H. simpl in H. destruct (decide (k' = k)) as [<-|Hne].
    + rewrite lookup_insert_eq in H. injection H as <-.
      left. by left.
    + rewrite lookup_insert_ne in H by done. by right.
Qed.

End DifferLoop.

(** ** The three-way difference *)

Section Difference.

Import Differ.

Implicit Types content : gmap str (list str).

(** A comprehension [(kod, content[kod], flag) for kod in l] over keys
    of [content] raises no [KeyError]; its entries are the keys of [l],
    in order, each with its value in [content]. *)
Lemma comprehension_spec content (flag : bool) (l : list str) :
  (∀ kod, kod ∈ l → is_Some (content !! kod)) →
  ∃ r, mapM (λ kod, v ← getitem content kod; Some (kod, v, flag)) l = Some r
       ∧ keys r = l
       ∧ ∀ e, e ∈ r → content !! entry_key e = Some e.1.2 ∧ e.2 = flag.
Proof.
  induction l as [|kod l IH]; intros Hl.
  - exists []. split; [done|]. split; [done|]. by intros e ?%elem_of_nil.
  - destruct IH as (r & Hr & Hk & He).
    { intros k Hk. apply Hl. by right. }
    destruct (Hl kod) as [v Hv]; [by left|].
    exists ((kod, v, flag) :: r). split; [|split].
    + unfold getitem in *. cbn. rewrite Hv. cbn. by rewrite Hr.
    + unfold keys in *. cbn. by rewrite Hk.
    + intros e [->|He']%elem_of_cons; [done|]. by apply He.
Qed.

(** [find_differences] always returns, and its three lists hold the keys
    of the three sets it enumerates. *)
Lemma find_differences_spec content1 content2 :
  ∃ u1 u2 md,
    find_differences content1 content2 = Some (u1, u2, md)
    ∧ keys u1 = elements (dom content1 ∖ dom content2)
    ∧ keys u2 = elements (dom content2 ∖ dom content1)
    ∧ keys md
      = filter (λ kod, content1 !! kod ≠ content2 !! kod)
          (elements (dom content1 ∩ dom content2))
    ∧ (∀ e, e ∈ u1 → content1 !! entry_key e = Some e.1.2 ∧ e.2 = false)
    ∧ (∀ e, e ∈ u2 → content2 !! entry_key e = Some e.1.2 ∧ e.2 = true)
    ∧ (∀ e, e ∈ md → content1 !! entry_key e = Some e.1.2 ∧ e.2 = true).
Proof.
  destruct (comprehension_spec content1 false
              (elements (dom content1 ∖ dom content2)))
    as (u1 & E1 & K1 & V1).
  { intros k [Hk _]%elem_of_elements%elem_of_difference.
    by apply elem_of_dom. }
  destruct (comprehension_spec content2 true
              (elements (dom content2 ∖ dom content1)))
    as (u2 & E2 & K2 & V2).
  { intros k [Hk _]%elem_of_elements%elem_of_difference.
    by apply elem_of_dom. }
  destruct (comprehension_spec content1 true
              (filter (λ kod, content1 !! kod ≠ content2 !! kod)
                 (elements (dom content1 ∩ dom content2))))
    as (md & E3 & K3 & V3).
  { intros k [_ [Hk _]%elem_of_elements%elem_of_intersection]%list_elem_of_filter.
    by apply elem_of_dom. }
  exists u1, u2, md. unfold find_differences.
  unfold getitem, entry in *.
  rewrite E1. cbn. rewrite E2. cbn. rewrite E3. cbn. done.
Qed.

End Difference.

(** ** Stripping, splitting and joining *)

Section TextFacts.

Lemma lstrip_head_ok s : head_ok (lstrip s).
Proof.
  induction s as [|c r IH]; [done|].
  simpl. destruct (isspace c) eqn:E; [done|]. exact E.
Qed.

Lemma rstrip_head_ok s : head_ok s → head_ok (rstrip s).
Proof.
  destruct s as [|c r]; [done|]. simpl. intros Hc.
  destruct (rstrip r); [by rewrite Hc|done].
Qed.

Lemma rstrip_last_ok s : last_ok (rstrip s).
Proof.
  induction s as [|c r IH]; [by left|].
  simpl. destruct (rstrip r) as [|x r'] eqn:E.
  - destruct (isspace c) eqn:Ec; [by left|].
    right. by exists [], c.
  - right. destruct IH as [IH|(s' & c' & -> & Hc')]; [done|].
    by exists (c :: s'), c'.
Qed.

Lemma strip_trimmed s : head_ok (strip s) ∧ last_ok (strip s).
Proof.
  split; [apply rstrip_head_ok, lstrip_head_ok | apply rstrip_last_ok].
Qed.

Lemma lstrip_id s : head_ok s → lstrip s = s.
Proof. destruct s as [|c r]; [done|]. simpl. by intros ->. Qed.

Lemma rstrip_snoc_space s c : isspace c = true → rstrip (s ++ [c]) = rstrip s.
Proof.
  intros Hc. induction s as [|a s IH]; simpl.
  - by rewrite Hc.
  - by rewrite IH.
Qed.

Lemma rstrip_snoc_other s c :
  isspace c = false → rstrip (s ++ [c]) = s ++ [c].
Proof.
  intros Hc. induction s as [|a s IH]; simpl.
  - by rewrite Hc.
  - rewrite IH. destruct (s ++ [c]) eqn:E; [|done].
    by destruct s.
Qed.

Lemma rstrip_id s : last_ok s → rstrip s = s.
Proof.
  intros [->|(s' & c & -> & Hc)]; [done|]. by apply rstrip_snoc_other.
Qed.

Lemma isspace_TAB : isspace TAB = true.
Proof. reflexivity. Qed.

Lemma isspace_SPACE : isspace SPACE = true.
Proof. reflexivity. Qed.

Lemma isspace_LF : isspace LF = true.
Proof. reflexivity. Qed.

Lemma not_space_not_TAB c : isspace c = false → (c =? TAB) = false.
Proof.
  intros H. apply N.eqb_neq. intros ->. by rewrite isspace_TAB in H.
Qed.

Lemma not_space_not_SPACE c : isspace c = false → (c =? SPACE) = false.
Proof.
  intros H. apply N.eqb_neq. intros ->. by rewrite isspace_SPACE in H.
Qed.

Lemma split_from_nonempty s : ∀ b, split_from b s ≠ [].
Proof.
  induction s as [|c r IH]; intros b; [done|].
  simpl. destruct (b && (c =? SPACE)); [apply IH|].
  destruct (c =? TAB); [done|].
  destruct ((c =? SPACE) && starts_with_space r); [done|].
  specialize (IH false). by destruct (split_from false r).
Qed.

Lemma split_tab_nonempty s : split_tab s ≠ [].
Proof.
  induction s as [|c r IH]; [done|].
  simpl. destruct (c =? TAB); [done|]. by destruct (split_tab r).
Qed.

Lemma join_tab_cons_head c fs :
  fs ≠ [] → join_tab (cons_head c fs) = c :: join_tab fs.
Proof. destruct fs as [|f [|g fs]]; done. Qed.

Lemma join_tab_empty_field fs :
  fs ≠ [] → join_tab ([] :: fs) = TAB :: join_tab fs.
Proof. destruct fs; done. Qed.

(** [retab] unfolds along the scan of [split_from]. *)
Lemma retab_cons b c r :
  retab b (c :: r)
  = if b && (c =? SPACE) then retab true r
    else if c =? TAB then TAB :: retab false r
    else if (c =? SPACE) && starts_with_space r then TAB :: retab true r
    else c :: retab false r.
Proof.
  unfold retab. simpl.
  destruct (b && (c =? SPACE)); [done|].
  destruct (c =? TAB).
  { apply join_tab_empty_field, split_from_nonempty. }
  destruct ((c =? SPACE) && starts_with_space r).
  { apply join_tab_empty_field, split_from_nonempty. }
  apply join_tab_cons_head, split_from_nonempty.
Qed.

Lemma retab_nil b : retab b [] = [].
Proof. done. Qed.

Lemma retab_starts_with_space r :
  starts_with_space r = false → starts_with_space (retab false r) = false.
Proof.
  destruct r as [|c r]; [done|]. simpl. intros Hc.
  rewrite retab_cons. simpl.
  destruct (c =? TAB); [done|].
  rewrite Hc. simpl. exact Hc.
Qed.

(** Splitting the re-tabbed line gives the fields of the line. *)
Lemma split_retab s : ∀ b, split_from false (retab b s) = split_from b s.
Proof.
  induction s as [|c r IH]; intros b; [done|].
  rewrite retab_cons. simpl.
  destruct (b && (c =? SPACE)) eqn:E1; [apply IH|].
  destruct (c =? TAB) eqn:E2.
  { simpl. by rewrite IH. }
  destruct ((c =? SPACE) && starts_with_space r) eqn:E3.
  { simpl. by rewrite IH. }
  simpl. rewrite E2.
  replace ((c =? SPACE) && starts_with_space (retab false r)) with false.
  { by rewrite IH. }
  symmetry. apply andb_false_iff.
  apply andb_false_iff in E3 as [E3|E3]; [by left|right].
  by apply retab_starts_with_space.
Qed.

(** Re-tabbing touches whitespace only. *)
Lemma sub_ws_retab s : ∀ b, sub_ws (retab b s) = sub_ws s.
Proof.
  induction s as [|c r IH]; intros b; [done|].
  rewrite retab_cons.
  destruct (b && (c =? SPACE)) eqn:E1.
  { apply andb_true_iff in E1 as [_ ->%N.eqb_eq].
    simpl. apply IH. }
  destruct (c =? TAB) eqn:E2.
  { apply N.eqb_eq in E2 as ->. simpl. apply IH. }
  destruct ((c =? SPACE) && starts_with_space r) eqn:E3.
  { apply andb_true_iff in E3 as [->%N.eqb_eq _]. simpl. apply IH. }
  simpl. by rewrite IH.
Qed.

Lemma retab_snoc s c : ∀ b,
  isspace c = false → retab b (s ++ [c]) = retab b s ++ [c].
Proof.
  induction s as [|a s IH]; intros b Hc.
  - simpl. rewrite retab_cons, retab_nil.
    rewrite (not_space_not_SPACE _ Hc), (not_space_not_TAB _ Hc).
    by rewrite andb_false_r.
  - simpl. rewrite !retab_cons.
    assert (starts_with_space (s ++ [c]) = starts_with_space s) as ->.
    { destruct s; [|done]. simpl. by apply not_space_not_SPACE. }
    rewrite !IH by done.
    destruct (b && (a =? SPACE)); [done|].
    destruct (a =? TAB); [done|].
    by destruct ((a =? SPACE) && starts_with_space s).
Qed.

(** A written line, read again and stripped, is the line without its
    line feed. *)
Lemma strip_retab_line t :
  head_ok t → last_ok t → strip (retab false t ++ [LF]) = retab false t.
Proof.
  intros Hh Hl. unfold strip.
  destruct t as [|c r]; [done|]. simpl in Hh.
  assert (head_ok (retab false (c :: r) ++ [LF])) as Hh'.
  { rewrite retab_cons. simpl.
    by rewrite (not_space_not_TAB _ Hh), (not_space_not_SPACE _ Hh). }
  rewrite (lstrip_id _ Hh').
  rewrite rstrip_snoc_space by apply isspace_LF.
  apply rstrip_id.
  destruct Hl as [Hl|(s' & c' & -> & Hc')]; [done|].
  right. exists (retab false s'), c'. by rewrite retab_snoc.
Qed.

Lemma unquote_id s : quote_free s → unquote s = s.
Proof.
  unfold quote_free. induction s as [|c r IH]; intros H; [done|].
  simpl. destruct (c =? QUOTE) eqn:E.
  - apply N.eqb_eq in E as ->. exfalso. apply H. by left.
  - rewrite IH; [done|]. intros ?. apply H. by right.
Qed.

Lemma lstrip_elem c s : c ∈ lstrip s → c ∈ s.
Proof.
  induction s as [|a s IH]; [done|]. simpl.
  destruct (isspace a); [|done]. intros ?. right. by apply IH.
Qed.

Lemma rstrip_elem c s : c ∈ rstrip s → c ∈ s.
Proof.
  induction s as [|a s IH]; [done|]. simpl.
  destruct (rstrip s) as [|x r'].
  - destruct (isspace a); [by intros ?%elem_of_nil|].
    intros ->%list_elem_of_singleton. by left.
  - intros [->|H]%elem_of_cons; [by left|]. right. by apply IH.
Qed.

Lemma strip_quote_free s : quote_free s → quote_free (strip s).
Proof.
  unfold quote_free, strip. intros H Hq.
  by apply H, lstrip_elem, rstrip_elem.
Qed.

Lemma split_from_elem s : ∀ b f c, f ∈ split_from b s → c ∈ f → c ∈ s.
Proof.
  induction s as [|a s IH]; intros b f c Hf Hc.
  - simpl in Hf. apply list_elem_of_singleton in Hf as ->.
    by apply elem_of_nil in Hc.
  - simpl in Hf.
    destruct (b && (a =? SPACE)).
    { right. by eapply IH. }
    destruct (a =? TAB).
    { apply elem_of_cons in Hf as [->|Hf]; [by apply elem_of_nil in Hc|].
      right. by eapply IH. }
    destruct ((a =? SPACE) && starts_with_space s).
    { apply elem_of_cons in Hf as [->|Hf]; [by apply elem_of_nil in Hc|].
      right. by eapply IH. }
    pose proof (split_from_nonempty s false) as Hne.
    destruct (split_from false s) as [|g gs] eqn:E; [done|].
    simpl in Hf. apply elem_of_cons in Hf as [->|Hf].
    + apply elem_of_cons in Hc as [->|Hc]; [by left|].
      right. apply (IH false g c); [|done]. rewrite E. by left.
    + right. apply (IH false f c); [|done]. rewrite E. by right.
Qed.

Lemma fields_of_quote_free t :
  quote_free t → Normalizer.fields_of t = re_split t.
Proof.
  intros Hq. unfold Normalizer.fields_of, re_split.
  rewrite <- (map_id (split_from false t)) at 2.
  apply map_ext_in. intros f Hf%list_elem_of_In.
  apply unquote_id. intros Hc. apply Hq.
  by eapply split_from_elem.
Qed.

Lemma lstrip_decomp s : ∃ p, s = p ++ lstrip s ∧ blank p.
Proof.
  unfold blank. induction s as [|c r (p & Hr & Hp)].
  { exists []. split; [done|]. by constructor. }
  simpl. destruct (isspace c) eqn:E.
  - exists (c :: p). split.
    + simpl. by f_equal.
    + by constructor.
  - exists []. split; [done|]. by constructor.
Qed.

Lemma rstrip_decomp s : ∃ q, s = rstrip s ++ q ∧ blank q.
Proof.
  unfold blank. induction s as [|c r (q & Hr & Hq)].
  { exists []. split; [done|]. by constructor. }
  simpl. destruct (rstrip r) as [|x r'] eqn:E.
  - simpl in Hr. subst r. destruct (isspace c) eqn:Ec.
    + exists (c :: q). split; [done|]. by constructor.
    + by exists q.
  - exists q. split; [|done]. simpl. by f_equal.
Qed.

(** The stripped form is the string between a whitespace prefix and a
    whitespace suffix. *)
Lemma strip_decomp s :
  ∃ p q, s = p ++ strip s ++ q ∧ blank p ∧ blank q.
Proof.
  destruct (lstrip_decomp s) as (p & Hp & Bp).
  destruct (rstrip_decomp (lstrip s)) as (q & Hq & Bq).
  exists p, q. unfold strip. split; [|done].
  by rewrite <- Hq.
Qed.

End TextFacts.

(** ** Lines, one at a time *)

Section Lines.

Import Normalizer.

Lemma sub_ws_lstrip s : sub_ws (lstrip s) = sub_ws s.
Proof.
  induction s as [|c r IH]; [done|]. simpl.
  destruct (isspace c) eqn:E; [done|]. simpl. by rewrite E.
Qed.

Lemma sub_ws_rstrip s : sub_ws (rstrip s) = sub_ws s.
Proof.
  induction s as [|c r IH]; [done|]. simpl.
  destruct (rstrip r) as [|x r'] eqn:E.
  - simpl in IH. rewrite <- IH.
    destruct (isspace c) eqn:Ec; simpl; by rewrite ?Ec.
  - change (sub_ws (c :: x :: r')) with
      (if isspace c then sub_ws (x :: r') else c :: sub_ws (x :: r')).
    by rewrite IH.
Qed.

(** Stripping a line does not change it modulo whitespace. *)
Lemma sub_ws_strip s : sub_ws (strip s) = sub_ws s.
Proof. unfold strip. by rewrite sub_ws_rstrip, sub_ws_lstrip. Qed.

Lemma is_header_true header line :
  sub_ws line = sub_ws header → is_header header (strip line) = true.
Proof.
  intros H. unfold is_header. apply bool_decide_eq_true.
  by rewrite sub_ws_strip.
Qed.

Lemma is_header_false header line :
  sub_ws line ≠ sub_ws header → is_header header (strip line) = false.
Proof.
  intros H. unfold is_header. apply bool_decide_eq_false.
  by rewrite sub_ws_strip.
Qed.

Lemma accepts_header header line :
  sub_ws line = sub_ws header → accepts header line = false.
Proof. intros H. unfold accepts. by rewrite is_header_true. Qed.

Lemma length_fields_of t : length (fields_of t) = length (re_split t).
Proof. unfold fields_of. apply length_map. Qed.

Lemma accepts_five header line :
  sub_ws line ≠ sub_ws header →
  length (re_split (strip line)) = 5%nat →
  accepts header line = true.
Proof.
  intros H Hn. unfold accepts.
  rewrite is_header_false by done. by rewrite length_fields_of, Hn.
Qed.

Lemma accepts_not_five header line :
  length (re_split (strip line)) ≠ 5%nat → accepts header line = false.
Proof.
  intros Hn. unfold accepts. rewrite length_fields_of.
  apply andb_false_iff. right. by apply Nat.eqb_neq.
Qed.

Lemma accepts_inv header line :
  accepts header line = true →
  sub_ws line ≠ sub_ws header ∧ length (re_split (strip line)) = 5%nat.
Proof.
  unfold accepts. intros [Hh Hn]%andb_true_iff. split.
  - intros H. by rewrite (is_header_true _ _ H) in Hh.
  - rewrite length_fields_of in Hn. by apply Nat.eqb_eq.
Qed.

(** The result for a file is put together from the results for its
    parts. *)
Lemma process_app header c1 c2 :
  let r := process_file_content (c1 ++ c2) header in
  let r1 := process_file_content c1 header in
  let r2 := process_file_content c2 header in
  cleaned_content r = cleaned_content r1 ++ cleaned_content r2
  ∧ skipped_lines r = skipped_lines r1 ++ skipped_lines r2
  ∧ table r = table r1 ++ table r2.
Proof.
  simpl. rewrite !cleaned_content_spec, !skipped_lines_spec, !table_spec.
  by rewrite !List.filter_app, !List.map_app.
Qed.

(** A line the Normalizer does not accept, anywhere in a file. *)
Lemma process_rejected header pre line post :
  accepts header line = false →
  let r := process_file_content (pre ++ line :: post) header in
  cleaned_content r
  = cleaned_content (process_file_content (pre ++ post) header)
  ∧ table r = table (process_file_content (pre ++ post) header)
  ∧ skipped_lines r
    = skipped_lines (process_file_content pre header)
        ++ strip line :: skipped_lines (process_file_content post header).
Proof.
  intros Ha. simpl.
  rewrite !cleaned_content_spec, !skipped_lines_spec, !table_spec.
  rewrite !List.filter_app, !List.map_app. simpl. by rewrite Ha.
Qed.

(** A line the Normalizer accepts, anywhere in a file. *)
Lemma process_accepted header pre line post :
  accepts header line = true →
  let r := process_file_content (pre ++ line :: post) header in
  cleaned_content r
  = cleaned_content (process_file_content pre header)
      ++ output_line line
      :: cleaned_content (process_file_content post header)
  ∧ table r
    = table (process_file_content pre header)
        ++ fields_of (strip line)
        :: table (process_file_content post header)
  ∧ skipped_lines r
    = skipped_lines (process_file_content (pre ++ post) header).
Proof.
  intros Ha. simpl.
  rewrite !cleaned_content_spec, !skipped_lines_spec, !table_spec.
  rewrite !List.filter_app, !List.map_app. simpl. by rewrite Ha.
Qed.

End Lines.

Section DifferLines.

Import Differ.

Lemma parse_row_header line : strip line = HEADER → parse_row line = None.
Proof. intros H. unfold parse_row. by rewrite bool_decide_true. Qed.

Lemma parse_row_five line kod nazwisko imie dzial zatrudnienie :
  strip line ≠ HEADER →
  split_tab (strip line) = [kod; nazwisko; imie; dzial; zatrudnienie] →
  parse_row line = Some (kod, [nazwisko; imie; dzial; zatrudnienie]).
Proof.
  intros H E. unfold parse_row. rewrite bool_decide_false by done.
  by rewrite E.
Qed.

Lemma parse_row_not_five line :
  length (split_tab (strip line)) ≠ 5%nat → parse_row line = None.
Proof.
  intros H. unfold parse_row. case_bool_decide; [done|].
  by destruct (split_tab (strip line)) as [|f1 [|f2 [|f3 [|f4 [|f5 [|f6 fs]]]]]].
Qed.

Lemma parse_row_inv line kod fields :
  parse_row line = Some (kod, fields) →
  strip line ≠ HEADER
  ∧ split_tab (strip line) = kod :: fields
  ∧ length fields = 4%nat.
Proof.
  unfold parse_row. case_bool_decide; [done|].
  destruct (split_tab (strip line)) as [|f1 [|f2 [|f3 [|f4 [|f5 [|f6 fs]]]]]];
    try done.
  by intros [= <- <-].
Qed.

(** A line the Differ does not store, anywhere in a file. *)
Lemma read_skipped pre line post :
  parse_row line = None →
  data (read_lines (pre ++ line :: post)) = data (read_lines (pre ++ post))
  ∧ skipped_lines (read_lines (pre ++ line :: post))
    = skipped_lines (read_lines pre)
        ++ strip line :: skipped_lines (read_lines post).
Proof.
  intros E. rewrite !data_spec, !skipped_spec.
  rewrite !omap_app, !List.filter_app, !List.map_app. simpl.
  unfold skips at 2. by rewrite E.
Qed.

(** A line the Differ stores, when it is the last line read. *)
Lemma read_stored pre line kod fields :
  parse_row line = Some (kod, fields) →
  read_lines (pre ++ [line])
  = mk_records (<[kod := fields]> (data (read_lines pre)))
               (skipped_lines (read_lines pre)).
Proof.
  intros E. unfold read_lines. rewrite read_from_app.
  change (read_from ?acc [line]) with (read_line acc line).
  by rewrite (read_line_row _ _ _ E).
Qed.

(** The lines after a line are read from the state that line leaves. *)
Lemma read_continues pre line post :
  read_lines (pre ++ line :: post)
  = read_from (read_lines (pre ++ [line])) post.
Proof.
  unfold read_lines.
  by rewrite (read_from_app _ pre (line :: post)), (read_from_app _ pre [line]).
Qed.

End DifferLines.

(** ** The row parser *)

Section RowParser.

Import Samples.

(** C1 (as stated, refuted).  The header line of the specification's
    Scenario 1 yields no row, but both tools append its stripped form to
    their skipped list; and the Differ stores a header that matches only
    modulo whitespace as a row with the key [Kod ] (with the space). *)
Lemma C1_header_lands_in_skipped :
  sub_ws header_line = sub_ws Normalizer.expected_header
  ∧ Normalizer.skipped_lines
      (Normalizer.process_file_content [header_line]
         Normalizer.expected_header)
    = [Differ.HEADER]
  ∧ Differ.skipped_lines (Differ.read_lines [header_line]) = [Differ.HEADER]
  ∧ sub_ws spaced_header = sub_ws Differ.HEADER
  ∧ Differ.data (Differ.read_lines [spaced_header]) !! lit "Kod "
    = Some [lit "Nazwisko"; lit "Imie"; lit "Dzia" ++ [L_STROKE];
            lit "Zatrudnienie"].
Proof. vm_compute. by repeat split. Qed.

(** C1 (amended).  A line that equals the header modulo whitespace
    (Normalizer), or whose stripped form is the header literal (Differ),
    contributes no accepted row: the output lines, the table and the
    record set are those of the file without the line; its stripped form
    is appended to the skipped list, between the entries of the lines
    before and after it. *)
Theorem C1_header_yields_no_row header pre line post :
  (sub_ws line = sub_ws header →
     let r := Normalizer.process_file_content (pre ++ line :: post) header in
     Normalizer.cleaned_content r
     = Normalizer.cleaned_content
         (Normalizer.process_file_content (pre ++ post) header)
     ∧ Normalizer.table r
       = Normalizer.table
           (Normalizer.process_file_content (pre ++ post) header)
     ∧ Normalizer.skipped_lines r
       = Normalizer.skipped_lines
           (Normalizer.process_file_content pre header)
           ++ strip line
           :: Normalizer.skipped_lines
                (Normalizer.process_file_content post header))
  ∧ (strip line = Differ.HEADER →
     Differ.data (Differ.read_lines (pre ++ line :: post))
     = Differ.data (Differ.read_lines (pre ++ post))
     ∧ Differ.skipped_lines (Differ.read_lines (pre ++ line :: post))
       = Differ.skipped_lines (Differ.read_lines pre)
           ++ strip line :: Differ.skipped_lines (Differ.read_lines post)).
Proof.
  split.
  - intros H. by apply process_rejected, accepts_header.
  - intros H. by apply read_skipped, parse_row_header.
Qed.

Lemma C1_header_yields_no_row_witness :
  Normalizer.cleaned_content
    (Normalizer.process_file_content
       ([dev_line] ++ header_line :: [other_line])
       Normalizer.expected_header)
  = Normalizer.cleaned_content
      (Normalizer.process_file_content ([dev_line] ++ [other_line])
         Normalizer.expected_header)
  ∧ Differ.skipped_lines
      (Differ.read_lines ([dev_line] ++ header_line :: [other_line]))
    = Differ.skipped_lines (Differ.read_lines [dev_line])
        ++ strip header_line
        :: Differ.skipped_lines (Differ.read_lines [other_line]).
Proof.
  destruct (C1_header_yields_no_row Normalizer.expected_header
              [dev_line] header_line [other_line]) as [HN HD].
  split.
  - apply HN. vm_compute. reflexivity.
  - apply HD. vm_compute. reflexivity.
Defined.

(** C8.  A line that is no header match and does not split into five
    fields contributes nothing to the accepted rows: the output lines,
    the table and the record set are those of the file without the line.
    Its trimmed form is appended to the skipped list, and the lines after
    it are processed as usual.  The trimmed form is what is left of the
    line between a prefix and a suffix of whitespace, and it neither
    starts nor ends with whitespace. *)
Theorem C8_malformed_line_is_skipped header pre line post :
  (sub_ws line ≠ sub_ws header →
   length (re_split (strip line)) ≠ 5%nat →
     let r := Normalizer.process_file_content (pre ++ line :: post) header in
     Normalizer.cleaned_content r
     = Normalizer.cleaned_content
         (Normalizer.process_file_content (pre ++ post) header)
     ∧ Normalizer.table r
       = Normalizer.table
           (Normalizer.process_file_content (pre ++ post) header)
     ∧ Normalizer.skipped_lines r
       = Normalizer.skipped_lines
           (Normalizer.process_file_content pre header)
           ++ strip line
           :: Normalizer.skipped_lines
                (Normalizer.process_file_content post header))
  ∧ (strip line ≠ Differ.HEADER →
     length (split_tab (strip line)) ≠ 5%nat →
     Differ.data (Differ.read_lines (pre ++ line :: post))
     = Differ.data (Differ.read_lines (pre ++ post))
     ∧ Differ.skipped_lines (Differ.read_lines (pre ++ line :: post))
       = Differ.skipped_lines (Differ.read_lines pre)
           ++ strip line :: Differ.skipped_lines (Differ.read_lines post))
  ∧ (∃ p q, line = p ++ strip line ++ q ∧ blank p ∧ blank q)
  ∧ head_ok (strip line)
  ∧ last_ok (strip line).
Proof.
  split; [|split; [|split; [|split]]].
  - intros _ Hn. by apply process_rejected, accepts_not_five.
  - intros _ Hn. by apply read_skipped, parse_row_not_five.
  - apply strip_decomp.
  - apply strip_trimmed.
  - apply strip_trimmed.
Qed.

(** A line of four fields with spaces around it, between two rows: each
    tool appends the four fields, without the spaces and the line feed,
    to its skipped list and keeps both rows. *)
Lemma C8_malformed_line_is_skipped_witness :
  (Normalizer.cleaned_content
     (Normalizer.process_file_content
        ([dev_line] ++ padded_short_line :: [other_line])
        Normalizer.expected_header)
   = [dev_line; other_line]
   ∧ Normalizer.table
       (Normalizer.process_file_content
          ([dev_line] ++ padded_short_line :: [other_line])
          Normalizer.expected_header)
     = [[lit "001"; lit "Nowak"; lit "Jan"; lit "IT"; lit "Dev"];
        [lit "002"; lit "Kowalska"; lit "Anna"; lit "HR"; lit "Lead"]]
   ∧ Normalizer.skipped_lines
       (Normalizer.process_file_content
          ([dev_line] ++ padded_short_line :: [other_line])
          Normalizer.expected_header)
     = [lit "001" ++ TAB :: lit "Nowak" ++ TAB :: lit "Jan" ++ TAB
        :: lit "IT"])
  ∧ (Differ.data
       (Differ.read_lines ([dev_line] ++ padded_short_line :: [other_line]))
     = Differ.data (Differ.read_lines [dev_line; other_line])
     ∧ Differ.skipped_lines
         (Differ.read_lines ([dev_line] ++ padded_short_line :: [other_line]))
       = [lit "001" ++ TAB :: lit "Nowak" ++ TAB :: lit "Jan" ++ TAB
          :: lit "IT"]).
Proof.
  destruct (C8_malformed_line_is_skipped Normalizer.expected_header
              [dev_line] padded_short_line [other_line]) as (HN & HD & _).
  split.
  - exact (HN ltac:(vm_compute; congruence) ltac:(vm_compute; congruence)).
  - exact (HD ltac:(vm_compute; congruence) ltac:(vm_compute; congruence)).
Defined.

End RowParser.

Section FiveFields.

Import Samples.

Lemma unquote_quote_free s : quote_free (unquote s).
Proof.
  unfold quote_free. induction s as [|c r IH]; simpl.
  - by intros ?%elem_of_nil.
  - destruct (c =? QUOTE) eqn:E; [done|].
    intros [H|H]%elem_of_cons; [|done].
    apply N.eqb_neq in E. by apply E.
Qed.

(** C2 (as stated, refuted).  A line with a quoted second field: stripped
    of its quotes it splits into the five fields 001, Nowak, Jan, IT, Dev,
    but the Differ stores Nowak with its quotes.  A line that splits into
    five fields only once its quote is gone: the Normalizer, which splits
    first, finds four fields and skips the line.  And the header line: it
    splits into five fields and is no row of either tool. *)
Lemma C2_quotes_kept_or_line_skipped :
  split_tab (unquote (strip quoted_line))
  = [lit "001"; lit "Nowak"; lit "Jan"; lit "IT"; lit "Dev"]
  ∧ Differ.data (Differ.read_lines [quoted_line]) !! lit "001"
    = Some [quoted (lit "Nowak"); lit "Jan"; lit "IT"; lit "Dev"]
  ∧ re_split (unquote (strip gap_line))
    = [lit "a"; lit "b"; lit "c"; lit "d"; lit "e"]
  ∧ Normalizer.table
      (Normalizer.process_file_content [gap_line] Normalizer.expected_header)
    = []
  ∧ Normalizer.skipped_lines
      (Normalizer.process_file_content [gap_line] Normalizer.expected_header)
    = [strip gap_line]
  ∧ length (re_split (unquote (strip header_line))) = 5%nat
  ∧ Normalizer.table
      (Normalizer.process_file_content [header_line]
         Normalizer.expected_header)
    = []
  ∧ Differ.data (Differ.read_lines [header_line]) = ∅.
Proof. vm_compute. by repeat split. Qed.

(** C2 (amended).  For a line that is no header match and whose stripped
    form splits into exactly five fields on the tool's delimiter: the
    Normalizer adds the five fields, in order and each with its double
    quotes removed after the split, to the table and writes them joined by
    tabs; the Differ stores fields two to five, in order and unchanged
    (double quotes are kept), under field one. *)
Theorem C2_five_fields_in_order header pre line post f1 f2 f3 f4 f5 :
  (sub_ws line ≠ sub_ws header →
   re_split (strip line) = [f1; f2; f3; f4; f5] →
     let row := [unquote f1; unquote f2; unquote f3; unquote f4; unquote f5] in
     let r := Normalizer.process_file_content (pre ++ line :: post) header in
     Normalizer.table r
     = Normalizer.table (Normalizer.process_file_content pre header)
         ++ row :: Normalizer.table (Normalizer.process_file_content post header)
     ∧ Normalizer.cleaned_content r
       = Normalizer.cleaned_content
           (Normalizer.process_file_content pre header)
           ++ (join_tab row ++ [LF])
           :: Normalizer.cleaned_content
                (Normalizer.process_file_content post header)
     ∧ Forall quote_free row)
  ∧ (strip line ≠ Differ.HEADER →
     split_tab (strip line) = [f1; f2; f3; f4; f5] →
     Differ.read_lines (pre ++ [line])
     = Differ.mk_records
         (<[f1 := [f2; f3; f4; f5]]> (Differ.data (Differ.read_lines pre)))
         (Differ.skipped_lines (Differ.read_lines pre))
     ∧ Differ.read_lines (pre ++ line :: post)
       = Differ.read_from (Differ.read_lines (pre ++ [line])) post).
Proof.
  split.
  - intros Hh Hs. simpl.
    assert (accepts header line = true) as Ha.
    { apply accepts_five; [done|]. by rewrite Hs. }
    destruct (process_accepted header pre line post Ha) as (Hc & Ht & _).
    unfold output_line, Normalizer.fields_of in *. rewrite Hs in *.
    split; [exact Ht|]. split; [exact Hc|].
    repeat constructor; apply unquote_quote_free.
  - intros Hh Hs. split.
    + apply read_stored. by apply parse_row_five.
    + apply read_continues.
Qed.

Lemma C2_five_fields_in_order_witness :
  Normalizer.table
    (Normalizer.process_file_content ([] ++ quoted_line :: [])
       Normalizer.expected_header)
  = Normalizer.table
      (Normalizer.process_file_content [] Normalizer.expected_header)
      ++ [unquote (lit "001"); unquote (quoted (lit "Nowak"));
          unquote (lit "Jan"); unquote (lit "IT"); unquote (lit "Dev")]
      :: Normalizer.table
           (Normalizer.process_file_content [] Normalizer.expected_header)
  ∧ Differ.read_lines ([] ++ [quoted_line])
    = Differ.mk_records
        (<[lit "001" := [quoted (lit "Nowak"); lit "Jan"; lit "IT"; lit "Dev"]]>
           (Differ.data (Differ.read_lines [])))
        (Differ.skipped_lines (Differ.read_lines [])).
Proof.
  destruct (C2_five_fields_in_order Normalizer.expected_header
              [] quoted_line []
              (lit "001") (quoted (lit "Nowak")) (lit "Jan") (lit "IT")
              (lit "Dev")) as [HN HD].
  split.
  - apply HN; vm_compute; congruence.
  - apply HD; vm_compute; congruence.
Defined.


(** Every entry of the record set is the row of a line. *)
Lemma data_origin content kod fields :
  Differ.data (Differ.read_lines content) !! kod = Some fields →
  ∃ line, line ∈ content ∧ parse_row line = Some (kod, fields).
Proof.
  rewrite data_spec. intros [H|H]%fold_store_lookup; [|done].
  apply list_elem_of_omap in H as (line & Hl & Hp). by exists line.
Qed.



End FiveFields.

(** ** The record set *)

Section RecordSet.

Import Samples.

(** C7.  When a line with five fields and code [kod] is followed by no
    other row with that code, the record set maps [kod] to the four
    remaining fields of that line, whatever rows with the same code came
    before it; and the keys of the record set are pairwise distinct. *)
Theorem C7_last_write_wins pre line post kod nazwisko imie dzial zatrudnienie :
  strip line ≠ Differ.HEADER →
  split_tab (strip line) = [kod; nazwisko; imie; dzial; zatrudnienie] →
  (∀ l, l ∈ post →
     strip l = Differ.HEADER
     ∨ length (split_tab (strip l)) ≠ 5%nat
     ∨ head (split_tab (strip l)) ≠ Some kod) →
  let d := Differ.data (Differ.read_lines (pre ++ line :: post)) in
  d !! kod = Some [nazwisko; imie; dzial; zatrudnienie]
  ∧ NoDup (map_to_list d).*1.
Proof.
  intros Hh Hs Hpost d. split; [|apply NoDup_fst_map_to_list].
  subst d. rewrite data_spec, omap_app. simpl.
  rewrite (parse_row_five _ _ _ _ _ _ Hh Hs).
  rewrite fold_left_app. simpl. rewrite fold_store_other.
  - unfold store. simpl. apply lookup_insert_eq.
  - intros [k v] (l & Hl & Hp)%list_elem_of_omap Hk. simpl in Hk. subst k.
    apply parse_row_inv in Hp as (Hne & Hsp & Hn).
    destruct (Hpost l Hl) as [H|[H|H]].
    + done.
    + apply H. rewrite Hsp. simpl. by rewrite Hn.
    + apply H. by rewrite Hsp.
Qed.

Lemma C7_last_write_wins_witness :
  Differ.data (Differ.read_lines ([dev_line] ++ manager_line :: [other_line]))
    !! lit "001"
  = Some [lit "Nowak"; lit "Jan"; lit "IT"; lit "Manager"]
  ∧ NoDup
      (map_to_list
         (Differ.data
            (Differ.read_lines ([dev_line] ++ manager_line :: [other_line])))).*1.
Proof.
  apply (C7_last_write_wins [dev_line] manager_line [other_line]
           (lit "001") (lit "Nowak") (lit "Jan") (lit "IT") (lit "Manager")).
  - vm_compute. congruence.
  - vm_compute. reflexivity.
  - intros l ->%list_elem_of_singleton. right. right.
    vm_compute. congruence.
Defined.

End RecordSet.

(** ** The difference of two record sets *)

Section DiffResult.

Import Differ Samples.

Implicit Types content : gmap str (list str).

(** C3.  [find_differences] returns three lists whose keys are: the keys
    of file 1 only; the keys of file 2 only; the keys of both files with
    different values.  No key occurs twice in the three lists taken
    together, so they are pairwise disjoint, and a key of either file is in
    none of them exactly when both files map it to the same value. *)
Theorem C3_difference_partition content1 content2 :
  ∃ u1 u2 md,
    find_differences content1 content2 = Some (u1, u2, md)
    ∧ (∀ kod, kod ∈ keys u1 ↔ kod ∈ dom content1 ∧ kod ∉ dom content2)
    ∧ (∀ kod, kod ∈ keys u2 ↔ kod ∈ dom content2 ∧ kod ∉ dom content1)
    ∧ (∀ kod, kod ∈ keys md ↔
         kod ∈ dom content1 ∧ kod ∈ dom content2
         ∧ content1 !! kod ≠ content2 !! kod)
    ∧ NoDup (keys u1 ++ keys u2 ++ keys md)
    ∧ (∀ kod, (¬ (kod ∈ keys u1 ∧ kod ∈ keys u2))
              ∧ (¬ (kod ∈ keys u1 ∧ kod ∈ keys md))
              ∧ (¬ (kod ∈ keys u2 ∧ kod ∈ keys md)))
    ∧ (∀ kod, kod ∈ dom content1 ∪ dom content2 →
         ((kod ∉ keys u1) ∧ (kod ∉ keys u2) ∧ (kod ∉ keys md))
         ↔ (∃ v, content1 !! kod = Some v ∧ content2 !! kod = Some v)).
Proof.
  destruct (find_differences_spec content1 content2)
    as (u1 & u2 & md & E & K1 & K2 & K3 & _).
  exists u1, u2, md. split; [exact E|].
  assert (∀ kod, kod ∈ keys u1 ↔ kod ∈ dom content1 ∧ kod ∉ dom content2)
    as H1.
  { intros kod. rewrite K1, elem_of_elements. apply elem_of_difference. }
  assert (∀ kod, kod ∈ keys u2 ↔ kod ∈ dom content2 ∧ kod ∉ dom content1)
    as H2.
  { intros kod. rewrite K2, elem_of_elements. apply elem_of_difference. }
  assert (∀ kod, kod ∈ keys md ↔
            kod ∈ dom content1 ∧ kod ∈ dom content2
            ∧ content1 !! kod ≠ content2 !! kod) as H3.
  { intros kod. rewrite K3, list_elem_of_filter, elem_of_elements.
    rewrite elem_of_intersection. tauto. }
  split; [exact H1|]. split; [exact H2|]. split; [exact H3|].
  split; [|split].
  - apply NoDup_app. split; [|split].
    + rewrite K1. apply NoDup_elements.
    + intros kod Hk1 [Hk2|Hk3]%elem_of_app.
      * apply H1 in Hk1. apply H2 in Hk2. tauto.
      * apply H1 in Hk1. apply H3 in Hk3. tauto.
    + apply NoDup_app. split; [|split].
      * rewrite K2. apply NoDup_elements.
      * intros kod Hk2 Hk3. apply H2 in Hk2. apply H3 in Hk3. tauto.
      * rewrite K3. apply NoDup_filter, NoDup_elements.
  - intros kod. rewrite H1, H2, H3. tauto.
  - intros kod Hk. rewrite H1, H2, H3.
    rewrite !elem_of_dom.
    apply elem_of_union in Hk. rewrite !elem_of_dom in Hk.
    destruct (content1 !! kod) as [v1|] eqn:E1,
             (content2 !! kod) as [v2|] eqn:E2.
    + destruct (decide (v1 = v2)) as [->|Hne].
      * split; [by eexists|]. intros _.
        split; [|split]; intros H.
        -- destruct H as [_ H]. apply H. by eexists.
        -- destruct H as [_ H]. apply H. by eexists.
        -- destruct H as (_ & _ & H). by apply H.
      * split; [|by intros (v & [= ->] & [= ->])].
        intros (_ & _ & Hm). exfalso. apply Hm.
        split; [by eexists|]. split; [by eexists|]. congruence.
    + split.
      * intros (Hu & _). exfalso. apply Hu. split; [by eexists|].
        by intros [? ?].
      * by intros (v & _ & ?).
    + split.
      * intros (_ & Hu & _). exfalso. apply Hu. split; [by eexists|].
        by intros [? ?].
      * by intros (v & ? & _).
    + destruct Hk as [[? ?]|[? ?]]; done.
Qed.

(** C4.  For a key of both files, [find_differences] returns a modified
    entry exactly when the two value lists differ as lists of strings, and
    the entry for the key then holds the value list of file 1 and [True];
    the key is in neither of the two other lists. *)
Theorem C4_modified_iff_values_differ content1 content2 kod v1 v2 :
  content1 !! kod = Some v1 →
  content2 !! kod = Some v2 →
  ∃ u1 u2 md,
    find_differences content1 content2 = Some (u1, u2, md)
    ∧ (kod ∈ keys md ↔ v1 ≠ v2)
    ∧ ((kod, v1, true) ∈ md ↔ v1 ≠ v2)
    ∧ (∀ e, e ∈ md → entry_key e = kod → e = (kod, v1, true))
    ∧ (kod ∉ keys u1)
    ∧ (kod ∉ keys u2).
Proof.
  intros E1 E2.
  destruct (find_differences_spec content1 content2)
    as (u1 & u2 & md & E & K1 & K2 & K3 & _ & _ & V3).
  exists u1, u2, md. split; [exact E|].
  assert (kod ∈ keys md ↔ v1 ≠ v2) as Hk.
  { rewrite K3, list_elem_of_filter, elem_of_elements, elem_of_intersection.
    rewrite !elem_of_dom, E1, E2. split.
    - intros [H _] ->. by apply H.
    - intros H. split; [congruence|]. split; by eexists. }
  assert (∀ e, e ∈ md → entry_key e = kod → e = (kod, v1, true)) as He.
  { intros [[k v] b] Hin Hkey. unfold entry_key in Hkey. simpl in Hkey.
    subst k. destruct (V3 _ Hin) as [Hv Hb].
    unfold entry_key in Hv. simpl in Hv, Hb.
    rewrite E1 in Hv. by injection Hv as <-; subst b. }
  split; [exact Hk|]. split; [|split; [exact He|]].
  - rewrite <- Hk. split.
    + intros Hin. apply list_elem_of_In, in_map_iff.
      exists (kod, v1, true). split; [done|]. by apply list_elem_of_In.
    + intros Hin%list_elem_of_In%in_map_iff.
      destruct Hin as (e & Hkey & Hin%list_elem_of_In).
      by rewrite <- (He e Hin Hkey).
  - split.
    + rewrite K1, elem_of_elements, elem_of_difference, !elem_of_dom.
      intros [_ H]. apply H. by eexists.
    + rewrite K2, elem_of_elements, elem_of_difference, !elem_of_dom.
      intros [_ H]. apply H. by eexists.
Qed.

(** The two files of Scenario 4. *)
Lemma C4_modified_iff_values_differ_witness :
  ∃ u1 u2 md,
    find_differences file_a file_b = Some (u1, u2, md)
    ∧ (lit "001" ∈ keys md
       ↔ [lit "Nowak"; lit "Jan"; lit "IT"; lit "Dev"]
         ≠ [lit "Nowak"; lit "Jan"; lit "IT"; lit "Manager"])
    ∧ ((lit "001", [lit "Nowak"; lit "Jan"; lit "IT"; lit "Dev"], true) ∈ md
       ↔ [lit "Nowak"; lit "Jan"; lit "IT"; lit "Dev"]
         ≠ [lit "Nowak"; lit "Jan"; lit "IT"; lit "Manager"])
    ∧ (∀ e, e ∈ md → entry_key e = lit "001" →
         e = (lit "001", [lit "Nowak"; lit "Jan"; lit "IT"; lit "Dev"], true))
    ∧ (lit "001" ∉ keys u1)
    ∧ (lit "001" ∉ keys u2).
Proof.
  apply (C4_modified_iff_values_differ file_a file_b (lit "001")).
  - vm_compute. reflexivity.
  - vm_compute. reflexivity.
Defined.

(** Scenarios 4 and 5, evaluated. *)
Example scenario_4 :
  find_differences file_a file_b
  = Some ([], [],
          [(lit "001", [lit "Nowak"; lit "Jan"; lit "IT"; lit "Dev"], true)]).
Proof. by vm_compute. Qed.

Example scenario_5 :
  find_differences file_a2 file_b
  = Some ([(lit "002", [lit "Kowalska"; lit "Anna"; lit "HR"; lit "Lead"],
            false)],
          [],
          [(lit "001", [lit "Nowak"; lit "Jan"; lit "IT"; lit "Dev"], true)]).
Proof. by vm_compute. Qed.

End DiffResult.

(** ** Reading the Normalizer's output again *)

Section RoundTrip.

Import Normalizer Samples.

Variable header : str.

(** An accepted line without double quotes is written as its re-tabbed
    stripped form; read again, that line is accepted with the same fields
    and written unchanged. *)
Lemma reparse_line line :
  quote_free line →
  accepts header line = true →
  accepts header (output_line line) = true
  ∧ fields_of (strip (output_line line)) = fields_of (strip line)
  ∧ output_line (output_line line) = output_line line.
Proof.
  intros Hq Ha.
  pose proof (strip_quote_free _ Hq) as Hqt.
  destruct (strip_trimmed line) as [Hh Hl].
  apply accepts_inv in Ha as [Hne Hn].
  assert (output_line line = retab false (strip line) ++ [LF]) as Ho.
  { unfold output_line. by rewrite fields_of_quote_free. }
  assert (strip (output_line line) = retab false (strip line)) as Hs.
  { rewrite Ho. by apply strip_retab_line. }
  assert (fields_of (strip (output_line line)) = fields_of (strip line)) as Hf.
  { rewrite Hs. unfold fields_of, re_split. by rewrite split_retab. }
  split; [|split; [exact Hf|]].
  - unfold accepts. rewrite Hf, length_fields_of, Hn.
    rewrite andb_true_r. apply negb_true_iff.
    unfold is_header. apply bool_decide_eq_false.
    rewrite Hs, sub_ws_retab. by rewrite sub_ws_strip.
  - unfold output_line at 1. by rewrite Hf.
Qed.

Lemma reparse_lines content :
  Forall quote_free content →
  let out := List.map output_line (List.filter (accepts header) content) in
  List.filter (accepts header) out = out
  ∧ List.filter (λ l, negb (accepts header l)) out = []
  ∧ List.map output_line out = out
  ∧ List.map (λ l, fields_of (strip l)) out
    = List.map (λ l, fields_of (strip l))
        (List.filter (accepts header) content).
Proof.
  induction 1 as [|line content Hq _ IH]; [done|].
  simpl. destruct (accepts header line) eqn:Ha; [|exact IH].
  destruct (reparse_line line Hq Ha) as (Ha' & Hf & Ho).
  destruct IH as (IH1 & IH2 & IH3 & IH4).
  simpl. rewrite Ha'. simpl.
  by rewrite IH1, IH2, IH3, IH4, Hf, Ho.
Qed.

End RoundTrip.

Section RoundTripClaim.

Import Normalizer Samples.

(** C5 (as stated, refuted).  A line whose first field is a pair of
    double quotes is accepted and written with an empty first field, that
    is with a leading tab.  Read again, the written line is stripped of
    that tab, has four fields and is skipped: the second pass accepts
    nothing. *)
Lemma C5_written_line_not_read_back :
  cleaned_content (process_file_content [empty_code_line] expected_header)
  = [TAB :: lit "Nowak" ++ TAB :: lit "Jan" ++ TAB :: lit "IT" ++ TAB
         :: lit "Dev" ++ [LF]]
  ∧ cleaned_content
      (process_file_content
         (cleaned_content
            (process_file_content [empty_code_line] expected_header))
         expected_header)
    = []
  ∧ table
      (process_file_content
         (cleaned_content
            (process_file_content [empty_code_line] expected_header))
         expected_header)
    = [].
Proof. vm_compute. by repeat split. Qed.

End RoundTripClaim.

(** ** Running the Normalizer *)

Section Convert.

Import Normalizer Samples.

Lemma bind_done {A B} (t : list event) (a : A) (k : A → M B) :
  bind (t, Done a) k = (t ++ trace (k a), result_of (k a)).
Proof. unfold bind, trace, result_of. by destruct (k a). Qed.

Lemma bind_raised {A B} (t : list event) (e : exn) (k : A → M B) :
  bind (t, Raised e) k = (t, Raised e).
Proof. done. Qed.

Lemma log_debug_quiet verbose msg :
  ∃ t, log verbose DEBUG msg = (t, Done tt)
       ∧ existsb is_discrepancy t = false.
Proof. destruct verbose; by eexists. Qed.

(** A loop of quiet steps ends normally and reports nothing. *)
Lemma for_each_quiet {A} (g : A → M unit) (l : list A) :
  (∀ x, ∃ t, g x = (t, Done tt) ∧ existsb is_discrepancy t = false) →
  ∃ t, for_each g l = (t, Done tt) ∧ existsb is_discrepancy t = false.
Proof.
  intros Hg. induction l as [|x l (t & IH & Ht)]; [by exists []|].
  destruct (Hg x) as (tx & Hx & Htx).
  cbn [for_each]. rewrite Hx, bind_done, IH.
  exists (tx ++ t). split; [done|].
  rewrite existsb_app, Htx, Ht. done.
Qed.

Lemma report_discrepancy_spec verbose content r :
  ∃ t, report_discrepancy verbose content r = (t, Done tt)
       ∧ existsb is_discrepancy t
         = negb (length content =? length (cleaned_content r))%nat.
Proof.
  unfold report_discrepancy.
  destruct (length content =? length (cleaned_content r))%nat; cbn [negb].
  - by exists [].
  - destruct (for_each_quiet
                (λ p : nat * str, log verbose DEBUG (MsgSkippedLine p.1 p.2))
                (zip (seq 1 (length (skipped_lines r))) (skipped_lines r)))
      as (t & -> & Ht).
    { intros p. apply log_debug_quiet. }
    destruct verbose; simpl; eexists; (split; [reflexivity|]); done.
Qed.

Lemma print_table_quiet w (show_table : bool) rows :
  ∃ tp rp,
    (if show_table then print_table w rows else ret tt) = (tp, rp)
    ∧ existsb is_discrepancy tp = false.
Proof.
  unfold print_table.
  destruct show_table; [destruct (print_error w)|]; by do 2 eexists.
Qed.

Local Ltac trace_parts t1 td Htd Htp :=
  exists t1, td; do 2 eexists;
  (split; [reflexivity|]); (split; [reflexivity|]); (split; [exact Htd|]);
  rewrite ?existsb_app, ?Htp; reflexivity.

(** The trace of a run that reads and writes without error: the lines
    written, then the report, if any. *)
Lemma convert_to_utf8_trace w input_file verbose show_table content :
  path_exists w = true →
  getsize w ≠ 0 →
  readlines_utf16 w = inr content →
  write_error w = None →
  let r := process_file_content content expected_header in
  ∃ t1 td t2 res,
    convert_to_utf8 w input_file verbose show_table
    = (t1 ++ WriteLines (cleaned_content r) :: Log INFO MsgSaved :: td ++ t2,
       res)
    ∧ existsb is_discrepancy t1 = false
    ∧ existsb is_discrepancy td
      = negb (length content =? length (cleaned_content r))%nat
    ∧ existsb is_discrepancy t2 = false.
Proof.
  intros Hex Hsz%N.eqb_neq Hread Hwrite r.
  destruct (report_discrepancy_spec verbose content r) as (td & Hd & Htd).
  destruct (print_table_quiet w show_table (table r)) as (tp & rp & Hp & Htp).
  unfold convert_to_utf8, validate_file, convert_content.
  rewrite Hex, Hsz, Hread, Hwrite. fold r.
  destruct verbose; cbn [negb bind ret emit log app]; rewrite Hd, bind_done, Hp;
    cbn [trace result_of fst snd];
    (destruct rp as [[]|e|c]; [| destruct e |]);
    cbn [try_except select is_FileNotFoundError is_ValueError is_OSError
           is_Exception orb emit app];
    rewrite <- ?app_assoc; cbn [app];
    first
      [ trace_parts
          [Log INFO (MsgOpened input_file);
           Log DEBUG (MsgLinesRead (length content))] td Htd Htp
      | trace_parts [Log INFO (MsgOpened input_file)] td Htd Htp ].
Qed.

(** C9 (as stated, refuted).  On a file with a byte order mark and no
    line the Normalizer writes zero rows and logs no warning: the only
    events are the two messages of success and the empty write. *)
Lemma C9_no_rows_no_report :
  convert_to_utf8 bom_only (lit "in.txt") true true
  = ([Log INFO (MsgOpened (lit "in.txt")); Log DEBUG (MsgLinesRead 0);
      WriteLines []; Log INFO MsgSaved; Print None []],
     Done tt)
  ∧ reports_discrepancy (convert_to_utf8 bom_only (lit "in.txt") true true)
    = false.
Proof. by vm_compute. Qed.

(** C9 (amended).  When the input is read and the output written without
    error, the accepted lines are written and the warning that the counts
    differ is logged exactly when the number of accepted rows differs from
    the number of input lines. *)
Theorem C9_report_iff_counts_differ w input_file verbose show_table content :
  path_exists w = true →
  getsize w ≠ 0 →
  readlines_utf16 w = inr content →
  write_error w = None →
  let r := process_file_content content expected_header in
  let m := convert_to_utf8 w input_file verbose show_table in
  WriteLines (cleaned_content r) ∈ trace m
  ∧ (reports_discrepancy m = true
     ↔ length content ≠ length (cleaned_content r)).
Proof.
  intros Hex Hsz Hread Hwrite r m.
  destruct (convert_to_utf8_trace w input_file verbose show_table content
              Hex Hsz Hread Hwrite)
    as (t1 & td & t2 & res & Hm & H1 & Hd & H2).
  fold r in Hm, Hd. subst m. unfold reports_discrepancy. rewrite Hm.
  cbn [trace fst]. split.
  - apply elem_of_app. right. by left.
  - rewrite existsb_app, H1. cbn [orb existsb is_discrepancy].
    rewrite existsb_app, Hd, H2, orb_false_r.
    rewrite negb_true_iff. apply Nat.eqb_neq.
Qed.

Lemma C9_report_iff_counts_differ_witness :
  let r := process_file_content [header_line; dev_line] expected_header in
  let m := convert_to_utf8 small_export (lit "in.txt") false false in
  WriteLines (cleaned_content r) ∈ trace m
  ∧ (reports_discrepancy m = true
     ↔ length [header_line; dev_line] ≠ length (cleaned_content r)).
Proof.
  apply (C9_report_iff_counts_differ small_export (lit "in.txt") false false
           [header_line; dev_line]).
  - reflexivity.
  - vm_compute. discriminate.
  - reflexivity.
  - reflexivity.
Defined.

End Convert.

(** ** Running the Differ *)

Section CompareRun.

Import Differ Samples.

(** [read_file] never raises: whatever goes wrong while the encoding is
    detected or the file is read is logged as an error and answered with
    an empty record set and an empty skipped list. *)
Lemma read_file_spec w verbose file_path :
  match best_encoding w file_path with
  | inl e =>
      read_file w verbose file_path
      = ([Log ERROR (MsgDetectFailed e); Log ERROR (MsgReadError e)],
         Done (mk_records ∅ []))
  | inr None =>
      read_file w verbose file_path
      = ([Log ERROR (MsgDetectFailed ValueError);
          Log ERROR (MsgReadError ValueError)],
         Done (mk_records ∅ []))
  | inr (Some encoding) =>
      match readlines w file_path encoding with
      | inl e =>
          read_file w verbose file_path
          = ([Log INFO (MsgDetected encoding file_path);
              Log ERROR (MsgReadError e)],
             Done (mk_records ∅ []))
      | inr content =>
          read_file w verbose file_path
          = ([Log INFO (MsgDetected encoding file_path)],
             Done (read_lines content))
      end
  end.
Proof.
  unfold read_file, detect_encoding.
  destruct (best_encoding w file_path) as [e|[encoding|]]; [done| |done].
  cbn. by destruct (readlines w file_path encoding).
Qed.

Lemma read_file_returns w verbose file_path :
  ∃ t r, read_file w verbose file_path = (t, Done r) ∧ no_critical t.
Proof.
  pose proof (read_file_spec w verbose file_path) as H.
  destruct (best_encoding w file_path) as [e|[encoding|]];
    [| destruct (readlines w file_path encoding) |];
    rewrite H; by do 2 eexists.
Qed.

Lemma validate_file_spec w input_file :
  validate_file w input_file
  = match validation w input_file with
    | Some e => raise e
    | None => ret tt
    end.
Proof.
  unfold validate_file, validation.
  destruct (path_exists w input_file); [|done]. simpl.
  by destruct (getsize w input_file =? 0).
Qed.

Lemma validation_class w input_file e :
  validation w input_file = Some e →
  is_FileNotFoundError e || is_ValueError e = true.
Proof.
  unfold validation.
  destruct (path_exists w input_file); simpl; [|by intros [= <-]].
  destruct (getsize w input_file =? 0); [by intros [= <-]|done].
Qed.

Lemma display_step w (shown : bool) content title :
  ∃ t res,
    (if shown then display_content w content title else ret tt) = (t, res)
    ∧ no_critical t
    ∧ (res = Done tt ∨ ∃ e, res = Raised e ∧ print_error w = Some e).
Proof.
  unfold display_content.
  destruct shown; [destruct (print_error w) as [e|] eqn:Ep|];
    do 2 eexists; (split; [reflexivity|]); (split; [reflexivity|]); eauto.
Qed.

(** Showing the tables logs nothing; it ends normally unless [print]
    raises. *)
Lemma show_results_spec w show_tables u1 u2 md :
  ∃ t res,
    show_results w show_tables u1 u2 md = (t, res)
    ∧ no_critical t
    ∧ (res = Done tt ∨ ∃ e, res = Raised e ∧ print_error w = Some e).
Proof.
  unfold show_results.
  destruct show_tables;
    [|exists [], (Done tt); split; [done|]; split; [done|by left]].
  destruct (display_step w (is_nonempty u1) u1 (lit "Unikalne wiersze - Plik 1"))
    as (s1 & q1 & -> & N1 & [->|(e1 & -> & P1)]);
    [|rewrite bind_raised; do 2 eexists; split; [done|]; eauto].
  destruct (display_step w (is_nonempty u2) u2 (lit "Unikalne wiersze - Plik 2"))
    as (s2 & q2 & -> & N2 & [->|(e2 & -> & P2)]);
    [|rewrite bind_done, bind_raised; do 2 eexists; split; [done|];
      unfold no_critical in *; cbn [trace result_of fst snd];
      rewrite existsb_app, N1, N2; eauto].
  destruct (display_step w (is_nonempty md) md (lit "Zmodyfikowane wiersze"))
    as (s3 & q3 & -> & N3 & H3).
  rewrite !bind_done. do 2 eexists. split; [done|].
  unfold no_critical in *. cbn [trace result_of fst snd].
  by rewrite !existsb_app, N1, N2, N3.
Qed.

Lemma compare_files_valid w file1 file2 verbose show_tables :
  validation w file1 = None →
  validation w file2 = None →
  ∃ t res,
    compare_files w file1 file2 verbose show_tables = (t, res)
    ∧ (res = Done tt ∨ res = Exited 1)
    ∧ (print_error w = None →
       res = Done tt ∧ no_critical t ∧ Log INFO MsgCompareDone ∈ t).
Proof.
  intros V1 V2.
  destruct (read_file_returns w verbose file1) as (t1 & r1 & R1 & C1).
  destruct (read_file_returns w verbose file2) as (t2 & r2 & R2 & C2).
  destruct (find_differences_spec (data r1) (data r2))
    as (u1 & u2 & md & E & _).
  destruct (show_results_spec w show_tables u1 u2 md)
    as (ts & rs & S & Cs & Hrs).
  unfold compare_files. rewrite !validate_file_spec, V1, V2.
  cbn [bind ret app]. rewrite R1. cbn [bind]. rewrite R2.
  destruct verbose; cbn [bind log emit ret app]; rewrite E; cbn [bind ret app];
    rewrite S;
    (destruct Hrs as [->|(e & -> & Pe)];
     [ cbn [bind emit ret app try_except]; do 2 eexists;
       (split; [reflexivity|]); (split; [by left|]); intros _;
       (split; [done|]); split;
       [ unfold no_critical in *; rewrite !existsb_app, C1, C2; cbn;
         rewrite existsb_app, Cs; reflexivity
       | rewrite !elem_of_app; do 2 right;
         repeat (apply elem_of_cons; right);
         apply elem_of_app; right; by left ]
     | destruct e;
       cbn [bind try_except select is_FileNotFoundError is_ValueError
              is_Exception orb sys_exit];
       do 2 eexists; (split; [reflexivity|]); (split; [by right|]);
       intros Hp; by rewrite Hp in Pe ]).
Qed.

Lemma compare_files_invalid w file1 file2 verbose show_tables e :
  validation w file1 = Some e
  ∨ (validation w file1 = None ∧ validation w file2 = Some e) →
  compare_files w file1 file2 verbose show_tables
  = ([Log ERROR (MsgException e)], Exited 1).
Proof.
  intros H. unfold compare_files. rewrite !validate_file_spec.
  destruct H as [V1|[V1 V2]].
  - rewrite V1. pose proof (validation_class _ _ _ V1) as Hc.
    cbn [bind raise try_except select]. rewrite Hc. by destruct verbose.
  - rewrite V1, V2. pose proof (validation_class _ _ _ V2) as Hc.
    cbn [bind raise ret try_except select app]. rewrite Hc.
    by destruct verbose.
Qed.

Lemma read_file_failure w verbose file_path e :
  read_failure w file_path = Some e →
  ∃ t, read_file w verbose file_path = (t, Done (mk_records ∅ []))
       ∧ Log ERROR (MsgReadError e) ∈ t
       ∧ no_critical t.
Proof.
  unfold read_failure. intros H.
  pose proof (read_file_spec w verbose file_path) as Hs.
  destruct (best_encoding w file_path) as [e'|[encoding|]].
  - injection H as ->. eexists. split; [exact Hs|].
    split; [|done]. right. by left.
  - destruct (readlines w file_path encoding) as [e'|content]; [|done].
    injection H as ->. eexists. split; [exact Hs|].
    split; [|done]. right. by left.
  - injection H as <-. eexists. split; [exact Hs|].
    split; [|done]. right. by left.
Qed.

(** C10 (as stated, refuted).  Two files that exist but cannot be decoded:
    [read_file] logs each failure at the level of an error and answers
    with an empty record set, and the comparison runs to its end; nothing
    is logged as critical and the process ends with status 0. *)
Lemma C10_decode_error_does_not_abort :
  compare_files garbled (lit "a.txt") (lit "b.txt") false false
  = ([Log INFO (MsgDetected (lit "utf_8") (lit "a.txt"));
      Log ERROR (MsgReadError UnicodeDecodeError);
      Log INFO (MsgDetected (lit "utf_8") (lit "b.txt"));
      Log ERROR (MsgReadError UnicodeDecodeError);
      Log INFO (MsgFileRead (lit "a.txt"));
      Log INFO (MsgFileRead (lit "b.txt"));
      Log INFO MsgCompareDone],
     Done tt)
  ∧ exit_status (compare_files garbled (lit "a.txt") (lit "b.txt") false false)
    = 0.
Proof. by vm_compute. Qed.

(** C10 (amended).  In the Differ only a missing or empty input file
    aborts the run at file level: it is logged as an error and the process
    exits with status 1.  An error met while the encoding is detected or
    the file is read and decoded is caught in [read_file], logged as an
    error and answered with an empty record set and an empty skipped list.
    Once both paths are validated the run ends normally or exits with
    status 1, and it ends normally, with its closing message and nothing
    logged as critical, whenever [print] does not raise.  A file that is
    read yields the record set and the skipped lines of its lines. *)
Theorem C10_only_validation_aborts w file1 file2 verbose show_tables :
  (∀ e,
     validation w file1 = Some e
     ∨ (validation w file1 = None ∧ validation w file2 = Some e) →
     compare_files w file1 file2 verbose show_tables
     = ([Log ERROR (MsgException e)], Exited 1))
  ∧ (∀ file_path e,
       read_failure w file_path = Some e →
       ∃ t, read_file w verbose file_path = (t, Done (mk_records ∅ []))
            ∧ Log ERROR (MsgReadError e) ∈ t
            ∧ no_critical t)
  ∧ (validation w file1 = None →
     validation w file2 = None →
     ∃ t res,
       compare_files w file1 file2 verbose show_tables = (t, res)
       ∧ (res = Done tt ∨ res = Exited 1)
       ∧ (print_error w = None →
          res = Done tt ∧ no_critical t ∧ Log INFO MsgCompareDone ∈ t))
  ∧ (∀ file_path encoding content,
       best_encoding w file_path = inr (Some encoding) →
       readlines w file_path encoding = inr content →
       read_file w verbose file_path
       = ([Log INFO (MsgDetected encoding file_path)],
          Done (read_lines content))).
Proof.
  split; [|split; [|split]].
  - intros e. apply compare_files_invalid.
  - intros file_path e. apply read_file_failure.
  - apply compare_files_valid.
  - intros file_path encoding content Hb Hr.
    pose proof (read_file_spec w verbose file_path) as Hs.
    by rewrite Hb, Hr in Hs.
Qed.

Lemma C10_only_validation_aborts_witness :
  compare_files second_missing (lit "a.txt") (lit "b.txt") false false
  = ([Log ERROR (MsgException FileNotFoundError)], Exited 1).
Proof.
  apply (proj1 (C10_only_validation_aborts second_missing
                  (lit "a.txt") (lit "b.txt") false false)).
  right. split; vm_compute; reflexivity.
Defined.

End CompareRun.

(** * Further properties of the two scripts *)

(** ** What the Normalizer accepts and writes *)

Section NormalizerOutput.

Import Normalizer Samples.

Lemma unquote_elem c s : c ∈ unquote s → c ∈ s.
Proof.
  induction s as [|a s IH]; [done|]. simpl.
  destruct (a =? QUOTE).
  - intros ?. right. by apply IH.
  - intros [->|H]%elem_of_cons; [by left|]. right. by apply IH.
Qed.

Lemma split_from_tab_free s : ∀ b f, f ∈ split_from b s → tab_free f.
Proof.
  unfold tab_free.
  induction s as [|a s IH]; intros b f Hf.
  - simpl in Hf. apply list_elem_of_singleton in Hf as ->.
    by intros ?%elem_of_nil.
  - simpl in Hf.
    destruct (b && (a =? SPACE)); [by eapply IH|].
    destruct (a =? TAB) eqn:Et.
    { apply elem_of_cons in Hf as [->|Hf]; [by intros ?%elem_of_nil|].
      by eapply IH. }
    destruct ((a =? SPACE) && starts_with_space s).
    { apply elem_of_cons in Hf as [->|Hf]; [by intros ?%elem_of_nil|].
      by eapply IH. }
    pose proof (split_from_nonempty s false) as Hne.
    destruct (split_from false s) as [|g gs] eqn:E; [done|].
    simpl in Hf. apply elem_of_cons in Hf as [->|Hf].
    + intros [Ha|Hg]%elem_of_cons.
      * apply N.eqb_neq in Et. by apply Et.
      * apply (IH false g); [|done]. rewrite E. by left.
    + apply (IH false f). rewrite E. by right.
Qed.

Lemma split_tab_tab_free s : ∀ f, f ∈ split_tab s → tab_free f.
Proof.
  unfold tab_free.
  induction s as [|a s IH]; intros f Hf.
  - simpl in Hf. apply list_elem_of_singleton in Hf as ->.
    by intros ?%elem_of_nil.
  - simpl in Hf. destruct (a =? TAB) eqn:Et.
    { apply elem_of_cons in Hf as [->|Hf]; [by intros ?%elem_of_nil|].
      by apply IH. }
    pose proof (split_tab_nonempty s) as Hne.
    destruct (split_tab s) as [|g gs] eqn:E; [done|].
    simpl in Hf. apply elem_of_cons in Hf as [->|Hf].
    + intros [Ha|Hg]%elem_of_cons.
      * apply N.eqb_neq in Et. by apply Et.
      * apply (IH g); [by left|done].
    + apply IH. by right.
Qed.

Lemma fields_of_tab_free t : Forall tab_free (fields_of t).
Proof.
  unfold fields_of. apply Forall_forall. intros f Hf%list_elem_of_In.
  apply in_map_iff in Hf as (g & <- & Hg%list_elem_of_In).
  intros Ht%unquote_elem. by apply (split_from_tab_free t false g).
Qed.

Lemma fields_of_unquoted t : Forall quote_free (fields_of t).
Proof.
  unfold fields_of. apply Forall_forall. intros f Hf%list_elem_of_In.
  apply in_map_iff in Hf as (g & <- & _). apply unquote_quote_free.
Qed.

Lemma count_tabs_app a b : count_tabs (a ++ b) = (count_tabs a + count_tabs b)%nat.
Proof. unfold count_tabs. by rewrite List.filter_app, length_app. Qed.

Lemma count_tabs_tab_free f : tab_free f → count_tabs f = 0%nat.
Proof.
  unfold tab_free, count_tabs. induction f as [|c f IH]; [done|].
  intros H. simpl. destruct (c =? TAB) eqn:E.
  - apply N.eqb_eq in E as ->. exfalso. apply H. by left.
  - apply IH. intros ?. apply H. by right.
Qed.

Lemma count_tabs_join fs :
  Forall tab_free fs → count_tabs (join_tab fs) = pred (length fs).
Proof.
  induction 1 as [|f fs Hf Hfs IH]; [done|].
  destruct fs as [|g fs]; [by apply count_tabs_tab_free|].
  change (join_tab (f :: g :: fs)) with (f ++ TAB :: join_tab (g :: fs)).
  rewrite count_tabs_app, (count_tabs_tab_free _ Hf).
  change (count_tabs (TAB :: join_tab (g :: fs)))
    with (S (count_tabs (join_tab (g :: fs)))).
  by rewrite IH.
Qed.

Lemma join_tab_elem c fs :
  c ∈ join_tab fs → c = TAB ∨ ∃ f, f ∈ fs ∧ c ∈ f.
Proof.
  induction fs as [|f fs IH]; [by intros ?%elem_of_nil|].
  destruct fs as [|g fs].
  - intros H. right. exists f. split; [by left|done].
  - change (join_tab (f :: g :: fs)) with (f ++ TAB :: join_tab (g :: fs)).
    intros [H|[->|H]%elem_of_cons]%elem_of_app.
    + right. exists f. split; [by left|done].
    + by left.
    + destruct (IH H) as [->|(h & Hh & Hc)]; [by left|].
      right. exists h. split; [by right|done].
Qed.

(** X1.  Every input line is either written or skipped: the numbers of
    written and of skipped lines add up to the number of input lines, and
    the table has one row per written line. *)
Theorem X1_every_line_written_or_skipped content header :
  let r := process_file_content content header in
  (length (cleaned_content r) + length (skipped_lines r))%nat = length content
  ∧ length (table r) = length (cleaned_content r).
Proof.
  simpl. rewrite cleaned_content_spec, skipped_lines_spec, table_spec.
  rewrite !length_map. split; [|done]. apply List.filter_length.
Qed.

(** X2.  The written lines are the rows of the table, each joined by tabs
    and closed by a line feed, in the same order; and every row of the
    table has exactly five fields. *)
Theorem X2_written_lines_are_table_rows content header :
  let r := process_file_content content header in
  cleaned_content r = List.map (λ row, join_tab row ++ [LF]) (table r)
  ∧ Forall (λ row, length row = 5%nat) (table r).
Proof.
  simpl. rewrite cleaned_content_spec, table_spec. split.
  - by rewrite List.map_map.
  - apply Forall_forall. intros row Hrow%list_elem_of_In.
    apply in_map_iff in Hrow as (line & <- & [_ Ha]%filter_In).
    apply accepts_inv in Ha as [_ Hn]. by rewrite length_fields_of.
Qed.

(** X3.  Every line the Normalizer writes ends with a line feed, holds
    exactly four tabs and holds no double quote. *)
Theorem X3_written_line_shape content header line :
  line ∈ cleaned_content (process_file_content content header) →
  last line = Some LF ∧ count_tabs line = 4%nat ∧ quote_free line.
Proof.
  rewrite cleaned_content_spec. intros H%list_elem_of_In.
  apply in_map_iff in H as (l & <- & [_ Ha]%filter_In).
  apply accepts_inv in Ha as [_ Hn]. unfold output_line.
  split; [apply last_snoc|]. split.
  - rewrite count_tabs_app, count_tabs_join by apply fields_of_tab_free.
    rewrite length_fields_of, Hn. reflexivity.
  - unfold quote_free.
    intros [H|H]%elem_of_app.
    + apply join_tab_elem in H as [H|(f & Hf & Hc)]; [done|].
      pose proof (fields_of_unquoted (strip l)) as Hq.
      rewrite Forall_forall in Hq. by apply (Hq f).
    + by apply list_elem_of_singleton in H.
Qed.

Lemma X3_written_line_shape_witness :
  last dev_line = Some LF
  ∧ count_tabs dev_line = 4%nat
  ∧ quote_free dev_line.
Proof.
  apply (X3_written_line_shape [header_line; quoted_line] expected_header
           dev_line).
  vm_compute. by left.
Defined.

(** X4.  Processing is line by line: the result for two lists of lines one
    after the other is the result for the first followed by the result for
    the second, in all three components. *)
Theorem X4_processing_concatenates c1 c2 header :
  let r := process_file_content (c1 ++ c2) header in
  let r1 := process_file_content c1 header in
  let r2 := process_file_content c2 header in
  cleaned_content r = cleaned_content r1 ++ cleaned_content r2
  ∧ skipped_lines r = skipped_lines r1 ++ skipped_lines r2
  ∧ table r = table r1 ++ table r2.
Proof. apply process_app. Qed.

End NormalizerOutput.

(** ** The two parsers side by side *)

Section TwoParsers.

Import Samples.

Lemma blank_strip line : blank line → strip line = [].
Proof.
  unfold blank, strip. induction 1 as [|c r Hc _ IH]; [done|].
  simpl. by rewrite Hc.
Qed.

Lemma HEADER_nonempty : Differ.HEADER ≠ [].
Proof. by vm_compute. Qed.

(** X5.  A line of whitespace only is never a row, whatever the header:
    both tools record it in their skipped list as the empty string. *)
Theorem X5_blank_line_is_skipped header pre line post :
  blank line →
  (let r := Normalizer.process_file_content (pre ++ line :: post) header in
   Normalizer.cleaned_content r
   = Normalizer.cleaned_content
       (Normalizer.process_file_content (pre ++ post) header)
   ∧ Normalizer.skipped_lines r
     = Normalizer.skipped_lines (Normalizer.process_file_content pre header)
         ++ [] :: Normalizer.skipped_lines
                    (Normalizer.process_file_content post header))
  ∧ Differ.data (Differ.read_lines (pre ++ line :: post))
    = Differ.data (Differ.read_lines (pre ++ post))
  ∧ Differ.skipped_lines (Differ.read_lines (pre ++ line :: post))
    = Differ.skipped_lines (Differ.read_lines pre)
        ++ [] :: Differ.skipped_lines (Differ.read_lines post).
Proof.
  intros Hb. pose proof (blank_strip _ Hb) as Hs.
  assert (accepts header line = false) as Ha.
  { unfold accepts. rewrite Hs.
    by destruct (Normalizer.is_header header []). }
  assert (parse_row line = None) as Hp.
  { unfold parse_row. rewrite Hs.
    rewrite bool_decide_false; [done|]. intros H. by apply HEADER_nonempty. }
  destruct (process_rejected header pre line post Ha) as (Hc & _ & Hk).
  destruct (read_skipped pre line post Hp) as (Hd & Hsk).
  rewrite Hs in Hk, Hsk. done.
Qed.

Lemma X5_blank_line_is_skipped_witness :
  (Normalizer.cleaned_content
     (Normalizer.process_file_content ([dev_line] ++ [SPACE; TAB; LF] :: [])
        Normalizer.expected_header)
   = Normalizer.cleaned_content
       (Normalizer.process_file_content ([dev_line] ++ [])
          Normalizer.expected_header)
   ∧ Normalizer.skipped_lines
       (Normalizer.process_file_content ([dev_line] ++ [SPACE; TAB; LF] :: [])
          Normalizer.expected_header)
     = Normalizer.skipped_lines
         (Normalizer.process_file_content [dev_line]
            Normalizer.expected_header)
         ++ [] :: Normalizer.skipped_lines
                    (Normalizer.process_file_content []
                       Normalizer.expected_header))
  ∧ Differ.data (Differ.read_lines ([dev_line] ++ [SPACE; TAB; LF] :: []))
    = Differ.data (Differ.read_lines ([dev_line] ++ []))
  ∧ Differ.skipped_lines
      (Differ.read_lines ([dev_line] ++ [SPACE; TAB; LF] :: []))
    = Differ.skipped_lines (Differ.read_lines [dev_line])
        ++ [] :: Differ.skipped_lines (Differ.read_lines []).
Proof.
  apply (X5_blank_line_is_skipped Normalizer.expected_header
           [dev_line] [SPACE; TAB; LF] []).
  repeat constructor.
Defined.

Lemma split_from_no_double_space s :
  double_space s = false → split_from false s = split_tab s.
Proof.
  induction s as [|c r IH]; [done|].
  simpl. intros [Hc Hr]%orb_false_iff. rewrite Hc, (IH Hr). done.
Qed.

Lemma length_cons_head c fs :
  fs ≠ [] → length (cons_head c fs) = length fs.
Proof. by destruct fs. Qed.

(** Joining what [split] gives is the string itself. *)
Lemma join_split_tab s : join_tab (split_tab s) = s.
Proof.
  induction s as [|c r IH]; [done|]. simpl.
  destruct (c =? TAB) eqn:E.
  - apply N.eqb_eq in E as ->.
    rewrite join_tab_empty_field by apply split_tab_nonempty. by rewrite IH.
  - rewrite join_tab_cons_head by apply split_tab_nonempty. by rewrite IH.
Qed.

Lemma retab_fixed s : retab false s = s → double_space s = false.
Proof.
  induction s as [|c r IH]; [done|].
  rewrite retab_cons. cbn [andb double_space].
  destruct (c =? TAB) eqn:Et.
  { apply N.eqb_eq in Et as ->. intros [= H]. by rewrite (IH H). }
  destruct ((c =? SPACE) && starts_with_space r) eqn:Es.
  { intros [= H _]. apply andb_true_iff in Es as [Es _].
    apply N.eqb_eq in Es. subst c. discriminate H. }
  intros [= H]. by rewrite (IH H).
Qed.

(** X6.  The Normalizer's split and the Differ's split give the same
    fields exactly for the strings without two spaces in a row. *)
Theorem X6_splits_agree_without_double_space s :
  re_split s = split_tab s ↔ double_space s = false.
Proof.
  split.
  - intros H. apply retab_fixed. unfold retab.
    fold (re_split s). rewrite H. apply join_split_tab.
  - apply split_from_no_double_space.
Qed.

Lemma length_split_tab s : length (split_tab s) = S (count_tabs s).
Proof.
  induction s as [|c r IH]; [done|]. unfold count_tabs in *. simpl.
  destruct (c =? TAB); simpl.
  - by rewrite IH.
  - rewrite length_cons_head by apply split_tab_nonempty. exact IH.
Qed.

Lemma parse_row_is_Some line :
  is_Some (parse_row line)
  ↔ strip line ≠ Differ.HEADER ∧ count_tabs (strip line) = 4%nat.
Proof.
  pose proof (length_split_tab (strip line)) as Hl.
  unfold parse_row. case_bool_decide as Hh.
  - split; [by intros [? ?]|]. by intros [? _].
  - destruct (split_tab (strip line))
      as [|f1 [|f2 [|f3 [|f4 [|f5 [|f6 fs]]]]]]; simpl in Hl;
      (split; [intros [? ?]|intros [_ ?]]); try done; try lia.
    split; [done|lia].
Qed.

(** X7.  The Differ stores a line exactly when its stripped form is not
    the header and holds exactly four tabs; every other line goes to the
    skipped list. *)
Theorem X7_differ_stores_iff_four_tabs line :
  (Differ.skipped_lines (Differ.read_lines [line]) = []
   ↔ strip line ≠ Differ.HEADER ∧ count_tabs (strip line) = 4%nat)
  ∧ (Differ.data (Differ.read_lines [line]) = ∅
     ↔ ¬ (strip line ≠ Differ.HEADER ∧ count_tabs (strip line) = 4%nat)).
Proof.
  rewrite <- parse_row_is_Some.
  change (Differ.read_lines [line])
    with (Differ.read_line (Differ.mk_records ∅ []) line).
  destruct (parse_row line) as [[k v]|] eqn:E.
  - rewrite (read_line_row _ _ _ E). simpl. unfold store. simpl. split.
    + split; [by eexists|done].
    + split.
      * intros H. exfalso. by apply (insert_non_empty ∅ k v).
      * intros H. exfalso. apply H. by eexists.
  - rewrite (read_line_skip _ _ E). simpl. split.
    + split; [done|]. by intros [? ?].
    + split; [|done]. by intros _ [? ?].
Qed.

End TwoParsers.

(** ** The record set of a file *)

Section RecordSetShape.

Import Differ Samples.

Lemma split_tab_head c r :
  (c =? TAB) = false → ∃ f fs, split_tab (c :: r) = (c :: f) :: fs.
Proof.
  intros Hc. simpl. rewrite Hc.
  pose proof (split_tab_nonempty r) as Hne.
  destruct (split_tab r) as [|f fs]; [done|]. by exists f, fs.
Qed.

(** X8.  Every entry of a record set has a key that is not empty, does
    not start with whitespace and holds no tab, and a value of exactly
    four fields without tabs. *)
Theorem X8_record_set_entries_well_formed content kod fields :
  data (read_lines content) !! kod = Some fields →
  kod ≠ [] ∧ head_ok kod ∧ tab_free kod
  ∧ length fields = 4%nat ∧ Forall tab_free fields.
Proof.
  intros (line & _ & Hp)%data_origin.
  apply parse_row_inv in Hp as (_ & Hs & Hn).
  destruct (strip_trimmed line) as [Hh _].
  assert (∀ f, f ∈ kod :: fields → tab_free f) as Ht.
  { intros f Hf. apply (split_tab_tab_free (strip line)). by rewrite Hs. }
  assert (kod ≠ [] ∧ head_ok kod) as [Hk1 Hk2].
  { destruct (strip line) as [|c r]; [by destruct fields|].
    simpl in Hh.
    destruct (split_tab_head c r (not_space_not_TAB _ Hh)) as (f & fs & E).
    rewrite E in Hs. by injection Hs as <- _. }
  split; [done|]. split; [done|]. split; [apply Ht; by left|].
  split; [done|]. apply Forall_forall. intros f Hf. apply Ht. by right.
Qed.

Lemma X8_record_set_entries_well_formed_witness :
  lit "001" ≠ [] ∧ head_ok (lit "001") ∧ tab_free (lit "001")
  ∧ length [lit "Nowak"; lit "Jan"; lit "IT"; lit "Dev"] = 4%nat
  ∧ Forall tab_free [lit "Nowak"; lit "Jan"; lit "IT"; lit "Dev"].
Proof.
  apply (X8_record_set_entries_well_formed [header_line; dev_line]).
  vm_compute. reflexivity.
Defined.

Lemma size_fold_store rows : ∀ m : gmap str (list str),
  (size (fold_left store rows m) ≤ length rows + size m)%nat.
Proof.
  induction rows as [|[k v] rows IH]; intros m; [done|].
  simpl. etrans; [apply IH|]. unfold store. simpl.
  rewrite map_size_insert. destruct (m !! k); simpl; lia.
Qed.

Lemma length_rows_skipped content :
  (length (omap parse_row content) + length (List.filter skips content))%nat
  = length content.
Proof.
  induction content as [|line content IH]; [done|].
  unfold omap in *. simpl. unfold skips at 1.
  destruct (parse_row line); simpl; lia.
Qed.

(** X9.  A file has at least as many lines as its record set has keys and
    its skipped list has entries taken together: every line is skipped or
    stored, and lines with the same code share one key. *)
Theorem X9_keys_and_skipped_bounded content :
  let r := read_lines content in
  (size (data r) + length (skipped_lines r) ≤ length content)%nat.
Proof.
  simpl. rewrite data_spec, skipped_spec, length_map.
  pose proof (size_fold_store (omap parse_row content) ∅) as H.
  pose proof (length_rows_skipped content) as H'.
  rewrite map_size_empty in H. lia.
Qed.

Lemma fold_store_union rows : ∀ m : gmap str (list str),
  fold_left store rows m = fold_left store rows ∅ ∪ m.
Proof.
  induction rows as [|[k v] rows IH]; intros m.
  - simpl. by rewrite (left_id_L ∅ (∪)).
  - simpl. rewrite IH. rewrite (IH (store ∅ (k, v))).
    unfold store. simpl.
    rewrite (insert_union_singleton_l m), insert_empty.
    by rewrite (assoc_L (∪)).
Qed.

(** X10.  Reading two lists of lines one after the other gives the record
    set of the second laid over the record set of the first (where both
    have a key, the second wins), and the two skipped lists one after the
    other. *)
Theorem X10_reading_concatenates c1 c2 :
  data (read_lines (c1 ++ c2)) = data (read_lines c2) ∪ data (read_lines c1)
  ∧ skipped_lines (read_lines (c1 ++ c2))
    = skipped_lines (read_lines c1) ++ skipped_lines (read_lines c2).
Proof.
  rewrite !data_spec, !skipped_spec. split.
  - rewrite omap_app, fold_left_app. apply fold_store_union.
  - by rewrite List.filter_app, List.map_app.
Qed.

End RecordSetShape.

(** ** From the Normalizer to the Differ *)

Section Pipeline.

Import Samples.

Lemma split_tab_tab_free_id f : tab_free f → split_tab f = [f].
Proof.
  unfold tab_free. induction f as [|c f IH]; [done|].
  intros H. simpl. destruct (c =? TAB) eqn:E.
  - apply N.eqb_eq in E as ->. exfalso. apply H. by left.
  - rewrite IH; [done|]. intros ?. apply H. by right.
Qed.

Lemma split_tab_app_tab f r :
  tab_free f → split_tab (f ++ TAB :: r) = f :: split_tab r.
Proof.
  unfold tab_free. induction f as [|c f IH]; [done|].
  intros H. simpl. destruct (c =? TAB) eqn:E.
  - apply N.eqb_eq in E as ->. exfalso. apply H. by left.
  - rewrite IH; [done|]. intros ?. apply H. by right.
Qed.

(** Splitting the tab-joined fields gives the fields back. *)
Lemma split_join_tab fs :
  fs ≠ [] → Forall tab_free fs → split_tab (join_tab fs) = fs.
Proof.
  intros Hne Hfs. induction Hfs as [|f fs Hf Hfs IH]; [done|].
  destruct fs as [|g fs]; [by apply split_tab_tab_free_id|].
  change (join_tab (f :: g :: fs)) with (f ++ TAB :: join_tab (g :: fs)).
  rewrite split_tab_app_tab by done. by rewrite IH.
Qed.

Lemma headers_equal : Normalizer.expected_header = Differ.HEADER.
Proof. by vm_compute. Qed.

(** The Differ's view of a line the Normalizer writes for an accepted
    line without double quotes. *)
Lemma parse_written_line line :
  quote_free line →
  accepts Normalizer.expected_header line = true →
  parse_row (output_line line)
  = as_entry (Normalizer.fields_of (strip line))
  ∧ is_Some (parse_row (output_line line)).
Proof.
  intros Hq Ha.
  pose proof (strip_quote_free _ Hq) as Hqt.
  destruct (strip_trimmed line) as [Hh Hl].
  apply accepts_inv in Ha as [Hne Hn].
  assert (strip (output_line line) = retab false (strip line)) as Hs.
  { unfold output_line. rewrite fields_of_quote_free by done.
    by apply strip_retab_line. }
  assert (split_tab (retab false (strip line)) = re_split (strip line)) as Hsp.
  { unfold retab, re_split. apply split_join_tab.
    - apply split_from_nonempty.
    - apply Forall_forall. intros f Hf.
      by apply (split_from_tab_free (strip line) false). }
  assert (retab false (strip line) ≠ Differ.HEADER) as Hhd.
  { intros E. apply Hne. rewrite headers_equal, <- E.
    by rewrite sub_ws_retab, sub_ws_strip. }
  unfold parse_row. rewrite Hs, bool_decide_false, Hsp by done.
  rewrite fields_of_quote_free by done.
  destruct (re_split (strip line))
    as [|f1 [|f2 [|f3 [|f4 [|f5 [|f6 fs]]]]]]; done.
Qed.

Lemma parse_written_lines content :
  Forall quote_free content →
  let lines := List.filter (accepts Normalizer.expected_header) content in
  omap parse_row (List.map output_line lines)
  = omap as_entry (List.map (λ l, Normalizer.fields_of (strip l)) lines)
  ∧ List.filter skips (List.map output_line lines) = [].
Proof.
  induction 1 as [|line content Hq _ IH]; [done|].
  simpl. destruct (accepts Normalizer.expected_header line) eqn:Ha; [|exact IH].
  destruct (parse_written_line line Hq Ha) as (Hp & [row Hrow]).
  destruct IH as (IH1 & IH2).
  simpl. unfold skips at 1. rewrite <- Hp, Hrow. simpl.
  split; [|exact IH2]. f_equal. exact IH1.
Qed.

Lemma fold_store_is_Some rows : ∀ (m : gmap str (list str)) k v,
  (k, v) ∈ rows → is_Some (fold_left store rows m !! k).
Proof.
  induction rows as [|[k' v'] rows IH]; intros m k v H.
  - by apply elem_of_nil in H.
  - simpl. apply elem_of_cons in H as [[= -> ->]|H]; [|by eapply IH].
    destruct (decide (k' ∈ rows.*1)) as [Hin|Hin].
    + apply list_elem_of_fmap in Hin as ([k2 v2] & -> & Hin).
      by eapply IH.
    + rewrite fold_store_other.
      * unfold store. simpl. rewrite lookup_insert_eq. by eexists.
      * intros row Hrow Hk. apply Hin. apply list_elem_of_fmap.
        by exists row.
Qed.

Lemma fold_store_rows rows : ∀ m : gmap str (list str),
  fold_left store (omap as_entry rows) m = fold_left store_row rows m.
Proof.
  induction rows as [|row rows IH]; intros m; [done|].
  destruct row as [|kod fields]; simpl; apply IH.
Qed.

Lemma fold_store_row_other rows : ∀ (m : gmap str (list str)) kod,
  (∀ row, row ∈ rows → head row ≠ Some kod) →
  fold_left store_row rows m !! kod = m !! kod.
Proof.
  induction rows as [|row rows IH]; intros m kod Hk; [done|].
  simpl. rewrite IH by (intros r Hr; apply Hk; by right).
  destruct row as [|k v]; [done|]. simpl.
  apply lookup_insert_ne. intros ->. by apply (Hk (kod :: v)); [left|].
Qed.

(** X11.  The Differ reads what the Normalizer writes: when no input line
    holds a double quote, the Differ skips none of the written lines, and
    its record set is the rows of the Normalizer's table stored in order,
    the first field as key and the four others as value, a later row
    replacing an earlier one with the same code.  So every stored entry
    is a row of the table, the code of every row is a key, and a key has
    the fields of the last row with that code. *)
Theorem X11_differ_reads_normalizer_output content :
  Forall quote_free content →
  let r := Normalizer.process_file_content content Normalizer.expected_header in
  let d := Differ.read_lines (Normalizer.cleaned_content r) in
  Differ.skipped_lines d = []
  ∧ Differ.data d = of_rows (Normalizer.table r)
  ∧ (∀ kod fields,
       Differ.data d !! kod = Some fields →
       (kod :: fields) ∈ Normalizer.table r)
  ∧ (∀ row, row ∈ Normalizer.table r →
       ∃ kod fields, row = kod :: fields ∧ is_Some (Differ.data d !! kod))
  ∧ (∀ pre kod fields post,
       Normalizer.table r = pre ++ (kod :: fields) :: post →
       (∀ row, row ∈ post → head row ≠ Some kod) →
       Differ.data d !! kod = Some fields).
Proof.
  intros Hq. simpl.
  destruct (parse_written_lines content Hq) as (Hrows & Hskip).
  rewrite data_spec, skipped_spec, cleaned_content_spec, table_spec.
  rewrite Hrows, Hskip. split; [done|]. split; [|split; [|split]].
  - unfold of_rows. apply fold_store_rows.
  - intros kod fields [H|H]%fold_store_lookup; [|done].
    apply list_elem_of_omap in H as (row & Hrow & He).
    destruct row as [|k v]; [done|]. by injection He as -> ->.
  - intros row Hrow.
    assert (length row = 5%nat) as Hn.
    { apply list_elem_of_In, in_map_iff in Hrow
        as (line & <- & [_ Ha]%filter_In).
      apply accepts_inv in Ha as [_ Hn].
      by rewrite length_fields_of. }
    destruct row as [|kod fields]; [done|].
    exists kod, fields. split; [done|].
    apply (fold_store_is_Some _ _ kod fields).
    apply list_elem_of_omap. by exists (kod :: fields).
  - intros pre kod fields post Ht Hpost.
    rewrite fold_store_rows, Ht, fold_left_app. simpl.
    rewrite fold_store_row_other by done. apply lookup_insert_eq.
Qed.

(** Two rows with the code 001 and one with the code 002: the written
    lines are all read, and the record set has the second row of 001. *)
Lemma X11_differ_reads_normalizer_output_witness :
  let r :=
    Normalizer.process_file_content
      [header_line; dev_line; other_line; manager_line]
      Normalizer.expected_header in
  let d := Differ.read_lines (Normalizer.cleaned_content r) in
  Differ.skipped_lines d = []
  ∧ Differ.data d
    = of_rows
        [[lit "001"; lit "Nowak"; lit "Jan"; lit "IT"; lit "Dev"];
         [lit "002"; lit "Kowalska"; lit "Anna"; lit "HR"; lit "Lead"];
         [lit "001"; lit "Nowak"; lit "Jan"; lit "IT"; lit "Manager"]]
  ∧ Differ.data d !! lit "001"
    = Some [lit "Nowak"; lit "Jan"; lit "IT"; lit "Manager"].
Proof.
  destruct (X11_differ_reads_normalizer_output
              [header_line; dev_line; other_line; manager_line])
    as (H1 & H2 & _ & _ & H5).
  { repeat constructor; vm_compute;
      intros H; repeat (apply elem_of_cons in H as [H|H]; [discriminate H|]);
      by apply elem_of_nil in H. }
  split; [exact H1|]. split; [exact H2|].
  apply (H5 [[lit "001"; lit "Nowak"; lit "Jan"; lit "IT"; lit "Dev"];
             [lit "002"; lit "Kowalska"; lit "Anna"; lit "HR"; lit "Lead"]]
            (lit "001") [lit "Nowak"; lit "Jan"; lit "IT"; lit "Manager"] []).
  - reflexivity.
  - by intros row ?%elem_of_nil.
Defined.

End Pipeline.

(** ** More on the difference of two record sets *)

Section DifferenceMore.

Import Differ Samples.

Implicit Types content : gmap str (list str).

Lemma keys_elem (r : list entry) kod :
  kod ∈ keys r ↔ ∃ e, e ∈ r ∧ entry_key e = kod.
Proof.
  unfold keys. rewrite list_elem_of_In, in_map_iff. split.
  - intros (e & He & Hin%list_elem_of_In). by exists e.
  - intros (e & Hin%list_elem_of_In & He). by exists e.
Qed.

(** The entries of a comprehension, from its keys and its values. *)
Lemma entries_char content (flag : bool) (l : list str) (r : list entry) :
  keys r = l →
  (∀ e, e ∈ r → content !! entry_key e = Some e.1.2 ∧ e.2 = flag) →
  ∀ kod v b,
    (kod, v, b) ∈ r ↔ kod ∈ l ∧ content !! kod = Some v ∧ b = flag.
Proof.
  intros Hk Hv kod v b. split.
  - intros Hin. destruct (Hv _ Hin) as [H1 H2]. simpl in H1, H2.
    split; [|done]. rewrite <- Hk. apply keys_elem. by eexists.
  - intros (Hin & Hc & ->). rewrite <- Hk in Hin.
    apply keys_elem in Hin as ([[k' v'] b'] & Hin & Hkey).
    unfold entry_key in Hkey. simpl in Hkey. subst k'.
    destruct (Hv _ Hin) as [H1 H2]. unfold entry_key in H1. simpl in H1, H2.
    rewrite Hc in H1. injection H1 as <-. by subst b'.
Qed.

(** X12.  The entries of the three lists: a key of file 1 alone with its
    value in file 1 and [False]; a key of file 2 alone with its value in
    file 2 and [True]; a key of both files whose values differ, with its
    value in file 1 and [True]. *)
Theorem X12_entries_of_the_three_lists content1 content2 :
  ∃ u1 u2 md,
    find_differences content1 content2 = Some (u1, u2, md)
    ∧ (∀ kod v b,
         (kod, v, b) ∈ u1
         ↔ content1 !! kod = Some v ∧ content2 !! kod = None ∧ b = false)
    ∧ (∀ kod v b,
         (kod, v, b) ∈ u2
         ↔ content2 !! kod = Some v ∧ content1 !! kod = None ∧ b = true)
    ∧ (∀ kod v b,
         (kod, v, b) ∈ md
         ↔ content1 !! kod = Some v
           ∧ (∃ v', content2 !! kod = Some v' ∧ v ≠ v')
           ∧ b = true).
Proof.
  destruct (find_differences_spec content1 content2)
    as (u1 & u2 & md & E & K1 & K2 & K3 & V1 & V2 & V3).
  exists u1, u2, md. split; [exact E|]. split; [|split].
  - intros kod v b. rewrite (entries_char _ _ _ _ K1 V1).
    rewrite elem_of_elements, elem_of_difference, !elem_of_dom.
    rewrite <- eq_None_not_Some. split.
    + intros ([_ ?] & ? & ?). done.
    + intros (? & ? & ?). split; [|done]. split; [by eexists|done].
  - intros kod v b. rewrite (entries_char _ _ _ _ K2 V2).
    rewrite elem_of_elements, elem_of_difference, !elem_of_dom.
    rewrite <- eq_None_not_Some. split.
    + intros ([_ ?] & ? & ?). done.
    + intros (? & ? & ?). split; [|done]. split; [by eexists|done].
  - intros kod v b. rewrite (entries_char _ _ _ _ K3 V3).
    rewrite list_elem_of_filter, elem_of_elements, elem_of_intersection.
    rewrite !elem_of_dom. split.
    + intros ((Hne & _ & [v' Hv']) & Hv & ->).
      split; [done|]. split; [|done]. exists v'. split; [done|].
      intros ->. apply Hne. by rewrite Hv, Hv'.
    + intros (Hv & (v' & Hv' & Hne) & ->).
      split; [|done]. split; [|split; by eexists].
      rewrite Hv, Hv'. by intros [= ->].
Qed.

(** X13.  [find_differences] returns three empty lists exactly when the
    two record sets are equal. *)
Theorem X13_no_difference_iff_equal content1 content2 :
  find_differences content1 content2 = Some ([], [], [])
  ↔ content1 = content2.
Proof.
  destruct (find_differences_spec content1 content2)
    as (u1 & u2 & md & E & K1 & K2 & K3 & _).
  rewrite E. split.
  - intros [= -> -> ->]. apply map_eq. intros k.
    assert (k ∉ dom content1 ∖ dom content2) as H1.
    { rewrite <- elem_of_elements, <- K1. by intros ?%elem_of_nil. }
    assert (k ∉ dom content2 ∖ dom content1) as H2.
    { rewrite <- elem_of_elements, <- K2. by intros ?%elem_of_nil. }
    assert (¬ (content1 !! k ≠ content2 !! k
               ∧ k ∈ elements (dom content1 ∩ dom content2))) as H3.
    { intros [Hne Hin].
      assert (k ∈ keys ([] : list entry)) as Hk; [|by apply elem_of_nil in Hk].
      rewrite K3. by apply list_elem_of_filter. }
    rewrite elem_of_difference, !elem_of_dom in H1, H2.
    rewrite elem_of_elements, elem_of_intersection, !elem_of_dom in H3.
    destruct (content1 !! k) as [v1|] eqn:E1,
             (content2 !! k) as [v2|] eqn:E2; try done.
    + destruct (decide (v1 = v2)) as [->|Hne]; [done|].
      exfalso. apply H3. split; [congruence|]. split; by eexists.
    + exfalso. apply H1. split; [by eexists|]. by intros [? ?].
    + exfalso. apply H2. split; [by eexists|]. by intros [? ?].
  - intros <-.
    assert (keys u1 = []) as H1.
    { rewrite K1, difference_diag_L. apply elements_empty. }
    assert (keys u2 = []) as H2.
    { rewrite K2, difference_diag_L. apply elements_empty. }
    assert (keys md = []) as H3.
    { rewrite K3. apply elem_of_nil_inv.
      intros k [Hk _]%list_elem_of_filter. by apply Hk. }
    unfold keys in *.
    apply map_eq_nil in H1, H2, H3. by subst.
Qed.

(** X14.  Swapping the two record sets swaps the two lists of unique rows
    and keeps the modified rows, key by key: a key is unique to the first
    file of one call exactly when it is unique to the second file of the
    other, and it is modified in one call exactly when it is modified in
    the other.  (The order inside the lists is not compared.) *)
Theorem X14_swapping_the_files content1 content2 :
  ∃ u1 u2 md u1' u2' md',
    find_differences content1 content2 = Some (u1, u2, md)
    ∧ find_differences content2 content1 = Some (u1', u2', md')
    ∧ (∀ kod, kod ∈ keys u1' ↔ kod ∈ keys u2)
    ∧ (∀ kod, kod ∈ keys u2' ↔ kod ∈ keys u1)
    ∧ (∀ kod, kod ∈ keys md' ↔ kod ∈ keys md).
Proof.
  destruct (find_differences_spec content1 content2)
    as (u1 & u2 & md & E & K1 & K2 & K3 & _).
  destruct (find_differences_spec content2 content1)
    as (u1' & u2' & md' & E' & K1' & K2' & K3' & _).
  exists u1, u2, md, u1', u2', md'.
  split; [exact E|]. split; [exact E'|].
  split; [by rewrite K1', K2|]. split; [by rewrite K2', K1|].
  intros kod. rewrite K3', K3, !list_elem_of_filter, !elem_of_elements.
  rewrite !elem_of_intersection. split.
  - intros (Hne & H2 & H1). split; [|done]. intros E0. by apply Hne.
  - intros (Hne & H1 & H2). split; [|done]. intros E0. by apply Hne.
Qed.

(** X15.  Against an empty record set every entry of the other one is
    unique to its file and nothing is modified. *)
Theorem X15_against_an_empty_record_set content :
  (∃ u1, find_differences content ∅ = Some (u1, [], [])
         ∧ keys u1 = elements (dom content))
  ∧ (∃ u2, find_differences ∅ content = Some ([], u2, [])
           ∧ keys u2 = elements (dom content)).
Proof.
  split.
  - destruct (find_differences_spec content ∅)
      as (u1 & u2 & md & E & K1 & K2 & K3 & _).
    rewrite dom_empty_L in K1, K2, K3.
    rewrite difference_empty_L in K1.
    assert (keys u2 = []) as H2.
    { rewrite K2. apply elem_of_nil_inv.
      intros k [Hk _]%elem_of_elements%elem_of_difference.
      by apply not_elem_of_empty in Hk. }
    assert (keys md = []) as H3.
    { rewrite K3. apply elem_of_nil_inv.
      intros k [_ [_ Hk]%elem_of_elements%elem_of_intersection]%list_elem_of_filter.
      by apply not_elem_of_empty in Hk. }
    unfold keys in H2, H3. apply map_eq_nil in H2, H3. subst.
    by exists u1.
  - destruct (find_differences_spec ∅ content)
      as (u1 & u2 & md & E & K1 & K2 & K3 & _).
    rewrite dom_empty_L in K1, K2, K3.
    rewrite difference_empty_L in K2.
    assert (keys u1 = []) as H1.
    { rewrite K1. apply elem_of_nil_inv.
      intros k [Hk _]%elem_of_elements%elem_of_difference.
      by apply not_elem_of_empty in Hk. }
    assert (keys md = []) as H3.
    { rewrite K3. apply elem_of_nil_inv.
      intros k [_ [Hk _]%elem_of_elements%elem_of_intersection]%list_elem_of_filter.
      by apply not_elem_of_empty in Hk. }
    unfold keys in H1, H3. apply map_eq_nil in H1, H3. subst.
    by exists u2.
Qed.

Lemma length_keys (r : list entry) : length (keys r) = length r.
Proof. unfold keys. apply length_map. Qed.

Lemma size_split_by (X Y : gset str) :
  (size (X ∖ Y) + size (X ∩ Y))%nat = size X.
Proof.
  rewrite size_difference_alt.
  assert (size (X ∩ Y) ≤ size X)%nat; [|lia].
  apply subseteq_size. apply intersection_subseteq_l.
Qed.

(** X16.  No key is reported twice: the rows unique to a file and the
    modified rows together are at most as many as the entries of that
    file's record set. *)
Theorem X16_report_sizes_bounded content1 content2 :
  ∃ u1 u2 md,
    find_differences content1 content2 = Some (u1, u2, md)
    ∧ (length u1 + length md ≤ size content1)%nat
    ∧ (length u2 + length md ≤ size content2)%nat.
Proof.
  destruct (find_differences_spec content1 content2)
    as (u1 & u2 & md & E & K1 & K2 & K3 & _).
  exists u1, u2, md. split; [exact E|].
  rewrite <- !length_keys, K1, K2, K3.
  pose proof (length_filter (λ kod, content1 !! kod ≠ content2 !! kod)
                (elements (dom content1 ∩ dom content2))) as Hf.
  pose proof (size_split_by (dom content1) (dom content2)) as H1.
  pose proof (size_split_by (dom content2) (dom content1)) as H2.
  assert (dom content2 ∩ dom content1 = dom content1 ∩ dom content2) as Hc.
  { apply set_eq. intros k. rewrite !elem_of_intersection. tauto. }
  rewrite Hc in H2. rewrite !size_dom in H1, H2.
  unfold size at 1 2 in H1. unfold size at 1 2 in H2.
  unfold set_size in *. simpl in *. lia.
Qed.

Lemma data_value_length (lines : list str) kod fields :
  data (read_lines lines) !! kod = Some fields → length fields = 4%nat.
Proof.
  intros (line & _ & Hp)%data_origin.
  by apply parse_row_inv in Hp as (_ & _ & Hn).
Qed.

(** X17.  Every row that [display_content] builds from the difference of
    two files has six columns, as many as the table has field names. *)
Theorem X17_displayed_rows_have_six_columns lines1 lines2 u1 u2 md e :
  find_differences (data (read_lines lines1)) (data (read_lines lines2))
  = Some (u1, u2, md) →
  e ∈ u1 ++ u2 ++ md →
  length (display_row e) = 6%nat.
Proof.
  intros E He.
  destruct (find_differences_spec (data (read_lines lines1))
              (data (read_lines lines2)))
    as (u1' & u2' & md' & E' & _ & _ & _ & V1 & V2 & V3).
  rewrite E in E'. injection E' as <- <- <-.
  assert (length e.1.2 = 4%nat) as Hn.
  { apply elem_of_app in He as [He|[He|He]%elem_of_app].
    - destruct (V1 _ He) as [H _]. by eapply data_value_length.
    - destruct (V2 _ He) as [H _]. by eapply data_value_length.
    - destruct (V3 _ He) as [H _]. by eapply data_value_length. }
  destruct e as [[kod fields] b]. simpl in *.
  rewrite length_app. simpl. lia.
Qed.

Lemma X17_displayed_rows_have_six_columns_witness :
  length
    (display_row
       (lit "001", [lit "Nowak"; lit "Jan"; lit "IT"; lit "Dev"], true))
  = 6%nat.
Proof.
  apply (X17_displayed_rows_have_six_columns [dev_line] [manager_line]
           [] []
           [(lit "001", [lit "Nowak"; lit "Jan"; lit "IT"; lit "Dev"], true)]).
  - by vm_compute.
  - by left.
Defined.

End DifferenceMore.

(** ** More on running the Normalizer *)

Section ConvertMore.

Import Normalizer Samples.

Lemma for_each_log_trace {A} verbose (f : A → message) (l : list A) :
  for_each (λ x, log verbose DEBUG (f x)) l
  = ((if verbose then List.map (λ x, Log DEBUG (f x)) l else []), Done tt).
Proof.
  induction l as [|x l IH]; [by destruct verbose|].
  cbn [for_each]. rewrite IH. by destruct verbose.
Qed.

Lemma report_discrepancy_trace verbose content r :
  report_discrepancy verbose content r
  = (discrepancy_events verbose content r, Done tt).
Proof.
  unfold report_discrepancy, discrepancy_events.
  destruct (length content =? length (cleaned_content r))%nat; [done|].
  cbn [negb].
  rewrite (for_each_log_trace verbose
             (λ p : nat * str, MsgSkippedLine p.1 p.2)).
  by destruct verbose.
Qed.

Lemma print_table_trace w (show_table : bool) rows :
  ∃ tp rp,
    (if show_table then print_table w rows else ret tt) = (tp, rp)
    ∧ existsb is_write tp = false
    ∧ existsb (logged_at DEBUG) tp = false
    ∧ (rp = Done tt ∨ ∃ e, rp = Raised e).
Proof.
  unfold print_table.
  destruct show_table; [destruct (print_error w)|];
    do 2 eexists; (split; [reflexivity|]); eauto.
Qed.

(** The run that writes: its events up to what printing the table adds. *)
Lemma convert_written w input_file verbose show_table content :
  writes_output w content →
  let r := process_file_content content expected_header in
  ∃ tp,
    convert_to_utf8 w input_file verbose show_table
    = (Log INFO (MsgOpened input_file)
       :: (if verbose then [Log DEBUG (MsgLinesRead (length content))] else [])
       ++ WriteLines (cleaned_content r) :: Log INFO MsgSaved
       :: discrepancy_events verbose content r ++ tp,
       Done tt)
    ∧ existsb is_write tp = false
    ∧ existsb (logged_at DEBUG) tp = false.
Proof.
  intros (Hex & Hsz%N.eqb_neq & Hread & Hwrite) r.
  destruct (print_table_trace w show_table (table r))
    as (tp & rp & Hp & Hw & Hd & Hrp).
  unfold convert_to_utf8, validate_file, convert_content.
  rewrite Hex, Hsz, Hread, Hwrite. fold r.
  destruct verbose; cbn [negb bind ret emit log app];
    rewrite report_discrepancy_trace, bind_done, Hp;
    cbn [trace result_of fst snd];
    (destruct Hrp as [->|[e ->]]; [|destruct e]);
    cbn [try_except select is_FileNotFoundError is_ValueError is_OSError
           is_Exception orb emit app];
    rewrite <- ?app_assoc; cbn [app];
    eexists; (split; [reflexivity|]);
    rewrite ?existsb_app, ?Hw, ?Hd; done.
Qed.

(** The runs that do not write end normally all the same, after one or
    a few messages. *)
Lemma convert_not_written w input_file verbose show_table :
  (∀ content, ¬ writes_output w content) →
  ∃ t,
    convert_to_utf8 w input_file verbose show_table = (t, Done tt)
    ∧ existsb is_write t = false
    ∧ (verbose = false → existsb (logged_at DEBUG) t = false).
Proof.
  intros Hno. unfold convert_to_utf8, validate_file, convert_content.
  destruct (path_exists w) eqn:Hex; [|by eexists].
  destruct (getsize w =? 0) eqn:Hsz; [by eexists|].
  destruct (readlines_utf16 w) as [e|content] eqn:Hread.
  { destruct e, verbose; by eexists. }
  destruct (write_error w) as [e|] eqn:Hwrite.
  { destruct e, verbose; by eexists. }
  exfalso. apply (Hno content). repeat split; try done.
  by apply N.eqb_neq.
Qed.

Lemma writes_output_dec w :
  (∃ content, writes_output w content) ∨ (∀ content, ¬ writes_output w content).
Proof.
  unfold writes_output.
  destruct (path_exists w); [|right; by intros c (? & _)].
  destruct (decide (getsize w = 0)) as [Hz|Hz];
    [right; by intros c (_ & ? & _)|].
  destruct (readlines_utf16 w) as [e|content];
    [right; by intros c (_ & _ & ? & _)|].
  destruct (write_error w); [right; by intros c (_ & _ & _ & ?)|].
  left. by exists content.
Qed.

Lemma not_write_elem t lines :
  existsb is_write t = false → WriteLines lines ∉ t.
Proof.
  intros H Hin. apply not_true_iff_false in H. apply H.
  apply existsb_exists. exists (WriteLines lines).
  split; [by apply list_elem_of_In|done].
Qed.

Lemma discrepancy_events_no_write verbose content r :
  existsb is_write (discrepancy_events verbose content r) = false.
Proof.
  unfold discrepancy_events.
  destruct (length content =? length (cleaned_content r))%nat; [done|].
  destruct verbose; [|done]. cbn [existsb is_write orb].
  induction (zip (seq 1 (length (skipped_lines r))) (skipped_lines r));
    [done|by simpl].
Qed.


Lemma touches_output_iff w input_file verbose show_table :
  existsb touches_output
    (trace (convert_to_utf8 w input_file verbose show_table)) = true
  ↔ path_exists w = true
    ∧ getsize w ≠ 0
    ∧ ∃ content, readlines_utf16 w = inr content.
Proof.
  destruct (writes_output_dec w) as [[content Hw]|Hno].
  - destruct (convert_written w input_file verbose show_table content Hw)
      as (tp & -> & _).
    destruct Hw as (Hex & Hsz & Hread & _).
    split; [intros _; split; [done|]; split; [done|]; by exists content|].
    intros _. cbn [trace fst existsb touches_output orb].
    rewrite existsb_app. cbn [existsb touches_output orb].
    apply orb_true_r.
  - revert Hno. unfold writes_output, convert_to_utf8, validate_file,
      convert_content.
    destruct (path_exists w) eqn:Hex;
      [|intros _; split; [done|by intros (? & _)]].
    destruct (getsize w =? 0) eqn:Hsz.
    { intros _. apply N.eqb_eq in Hsz. split; [done|by intros (_ & ? & _)]. }
    apply N.eqb_neq in Hsz.
    destruct (readlines_utf16 w) as [e|content] eqn:Hread.
    { intros _. split; [by destruct e, verbose|].
      by intros (_ & _ & c & ?). }
    destruct (write_error w) as [e|] eqn:Hwrite.
    + intros _. split; [intros _|by destruct e, verbose].
      split; [done|]. split; [done|]. by exists content.
    + intros Hno. exfalso. by apply (Hno content).
Qed.

(** X19.  The output file is opened for writing exactly when the input
    exists, is not empty and is read as UTF-16 without error.  The write
    completes exactly when, besides, it raises no error, and the lines
    written are then the accepted lines of the content read.  (A write
    that raises may leave the file empty or partly written.) *)
Theorem X19_writes_exactly_the_accepted_lines w input_file verbose show_table :
  (existsb touches_output
     (trace (convert_to_utf8 w input_file verbose show_table)) = true
   ↔ path_exists w = true
     ∧ getsize w ≠ 0
     ∧ ∃ content, readlines_utf16 w = inr content)
  ∧ (∀ lines,
       WriteLines lines
       ∈ trace (convert_to_utf8 w input_file verbose show_table)
       ↔ ∃ content,
           writes_output w content
           ∧ lines
             = cleaned_content (process_file_content content expected_header)).
Proof.
  split; [apply touches_output_iff|]. intros lines. split.
  - intros Hin. destruct (writes_output_dec w) as [[content Hw]|Hno].
    + exists content. split; [done|].
      destruct (convert_written w input_file verbose show_table content Hw)
        as (tp & E & Htp & _).
      rewrite E in Hin. cbn [trace fst] in Hin.
      apply elem_of_cons in Hin as [Hin|Hin]; [done|].
      apply elem_of_app in Hin as [Hin|Hin].
      { destruct verbose; [|by apply elem_of_nil in Hin].
        by apply list_elem_of_singleton in Hin. }
      apply elem_of_cons in Hin as [Hin|Hin]; [by injection Hin|].
      apply elem_of_cons in Hin as [Hin|Hin]; [done|].
      apply elem_of_app in Hin as [Hin|Hin].
      * by apply not_write_elem in Hin;
          [|apply discrepancy_events_no_write].
      * by apply not_write_elem in Hin.
    + destruct (convert_not_written w input_file verbose show_table Hno)
        as (t & E & Ht & _).
      rewrite E in Hin. by apply not_write_elem in Hin.
  - intros (content & Hw & ->).
    destruct (convert_written w input_file verbose show_table content Hw)
      as (tp & E & _).
    rewrite E. cbn [trace fst]. right. apply elem_of_app. right. by left.
Qed.

Lemma skipped_nonempty_iff content header :
  let r := process_file_content content header in
  skipped_lines r ≠ [] ↔ length content ≠ length (cleaned_content r).
Proof.
  simpl. rewrite cleaned_content_spec, skipped_lines_spec, !length_map.
  pose proof (List.filter_length (accepts header) content) as H.
  destruct (List.filter (λ l, negb (accepts header l)) content) eqn:E;
    simpl in *.
  - split; [done|]. lia.
  - split; [|done]. lia.
Qed.

(** X20.  In a run that writes, the warning about the counts is logged
    exactly when at least one line was skipped; so it is logged for every
    file that holds a header line. *)
Theorem X20_warning_iff_a_line_was_skipped w input_file verbose show_table
    content :
  writes_output w content →
  let r := process_file_content content expected_header in
  let m := convert_to_utf8 w input_file verbose show_table in
  (reports_discrepancy m = true ↔ skipped_lines r ≠ [])
  ∧ (∀ line, line ∈ content →
       sub_ws line = sub_ws expected_header →
       reports_discrepancy m = true).
Proof.
  intros (Hex & Hsz & Hread & Hwrite) r m.
  destruct (convert_to_utf8_trace w input_file verbose show_table content
              Hex Hsz Hread Hwrite)
    as (t1 & td & t2 & res & Hm & H1 & Hd & H2).
  fold r in Hm, Hd.
  assert (reports_discrepancy m = true ↔ skipped_lines r ≠ []) as Hiff.
  { subst m r. unfold reports_discrepancy. rewrite Hm. cbn [trace fst].
    rewrite existsb_app, H1. cbn [orb existsb is_discrepancy].
    rewrite existsb_app, Hd, H2, orb_false_r.
    rewrite negb_true_iff, skipped_nonempty_iff. apply Nat.eqb_neq. }
  split; [exact Hiff|].
  intros line Hin Hh. apply Hiff. subst r. rewrite skipped_lines_spec.
  intros Hnil. apply map_eq_nil in Hnil.
  assert (In line (List.filter (λ l, negb (accepts expected_header l)) content))
    as Hf.
  { apply filter_In. split; [by apply list_elem_of_In|].
    by rewrite accepts_header. }
  by rewrite Hnil in Hf.
Qed.

Lemma X20_warning_iff_a_line_was_skipped_witness :
  let r := process_file_content [header_line; dev_line] expected_header in
  let m := convert_to_utf8 small_export (lit "in.txt") false false in
  (reports_discrepancy m = true ↔ skipped_lines r ≠ [])
  ∧ (∀ line, line ∈ [header_line; dev_line] →
       sub_ws line = sub_ws expected_header →
       reports_discrepancy m = true).
Proof.
  apply (X20_warning_iff_a_line_was_skipped small_export (lit "in.txt")
           false false [header_line; dev_line]).
  repeat split; vm_compute; congruence.
Defined.

(** X21.  In verbose mode a run that writes lists every skipped line in a
    debug message, numbered from 1 in the order of the file. *)
Theorem X21_verbose_run_lists_skipped_lines w input_file show_table content
    i line :
  writes_output w content →
  skipped_lines (process_file_content content expected_header) !! i
  = Some line →
  Log DEBUG (MsgSkippedLine (S i) line)
  ∈ trace (convert_to_utf8 w input_file true show_table).
Proof.
  intros Hw Hi.
  destruct (convert_written w input_file true show_table content Hw)
    as (tp & E & _).
  rewrite E. cbn [trace fst]. right. right. right. right.
  apply elem_of_app. left. unfold discrepancy_events.
  assert (skipped_lines (process_file_content content expected_header) ≠ [])
    as Hne.
  { intros Hnil. by rewrite Hnil in Hi. }
  apply skipped_nonempty_iff, Nat.eqb_neq in Hne. rewrite Hne.
  right. right.
  apply list_elem_of_In, in_map_iff. exists (S i, line). split; [done|].
  apply list_elem_of_In. apply (list_elem_of_lookup_2 _ i).
  apply lookup_zip_with_Some. exists (S i), line.
  split; [done|]. split; [|done].
  apply lookup_seq. split; [done|]. by apply lookup_lt_Some in Hi.
Qed.

Lemma X21_verbose_run_lists_skipped_lines_witness :
  Log DEBUG (MsgSkippedLine 1 Differ.HEADER)
  ∈ trace (convert_to_utf8 small_export (lit "in.txt") true false).
Proof.
  apply (X21_verbose_run_lists_skipped_lines small_export (lit "in.txt") false
           [header_line; dev_line] 0 Differ.HEADER).
  - repeat split; vm_compute; congruence.
  - vm_compute. reflexivity.
Defined.

Lemma discrepancy_events_quiet content r :
  existsb (logged_at DEBUG) (discrepancy_events false content r) = false.
Proof.
  unfold discrepancy_events.
  by destruct (length content =? length (cleaned_content r))%nat.
Qed.

(** X22.  Without the verbose flag the Normalizer logs no debug message,
    whatever happens. *)
Theorem X22_quiet_normalizer_logs_no_debug w input_file show_table :
  existsb (logged_at DEBUG)
    (trace (convert_to_utf8 w input_file false show_table))
  = false.
Proof.
  destruct (writes_output_dec w) as [[content Hw]|Hno].
  - destruct (convert_written w input_file false show_table content Hw)
      as (tp & -> & _ & Htp).
    cbn [trace fst app existsb logged_at orb].
    rewrite !bool_decide_false by done. cbn [orb].
    by rewrite existsb_app, discrepancy_events_quiet, Htp.
  - destruct (convert_not_written w input_file false show_table Hno)
      as (t & -> & _ & Ht).
    by apply Ht.
Qed.

End ConvertMore.

(** ** More on running the Differ *)

Section CompareMore.

Import Differ Samples.

Lemma read_file_prints_nothing w verbose file_path :
  ∃ t r, read_file w verbose file_path = (t, Done r)
         ∧ List.filter is_print t = []
         ∧ no_critical t.
Proof.
  pose proof (read_file_spec w verbose file_path) as H.
  destruct (best_encoding w file_path) as [e|[encoding|]];
    [| destruct (readlines w file_path encoding) |];
    rewrite H; by do 2 eexists.
Qed.

(** What showing the tables amounts to: nothing without the flag; with
    it, the tables of the lists that are not empty, unless [print]
    raises, which ends the block at the first table. *)
Lemma show_results_trace w show_tables u1 u2 md :
  (show_tables = false → show_results w show_tables u1 u2 md = ([], Done tt))
  ∧ (show_tables = true → print_error w = None →
     show_results w show_tables u1 u2 md = (tables_of u1 u2 md, Done tt))
  ∧ (∀ t e, show_results w show_tables u1 u2 md = (t, Raised e) →
       show_tables = true ∧ print_error w = Some e ∧ t = [])
  ∧ (∀ t c, show_results w show_tables u1 u2 md ≠ (t, Exited c)).
Proof.
  unfold show_results, display_content, tables_of.
  destruct show_tables, (print_error w) as [e'|],
    (is_nonempty u1), (is_nonempty u2), (is_nonempty md);
    cbn; repeat split; try done; try (by intros ? ? [= <- <-]).
  all: congruence.
Qed.

(** A run of [compare_files] on two valid paths, from its parts. *)
Lemma compare_files_run w file1 file2 verbose show_tables
    t1 r1 t2 r2 u1 u2 md ts rs :
  validation w file1 = None →
  validation w file2 = None →
  read_file w verbose file1 = (t1, Done r1) →
  read_file w verbose file2 = (t2, Done r2) →
  find_differences (data r1) (data r2) = Some (u1, u2, md) →
  show_results w show_tables u1 u2 md = (ts, rs) →
  compare_files w file1 file2 verbose show_tables
  = (t1 ++ t2
     ++ Log INFO (MsgFileRead file1) :: Log INFO (MsgFileRead file2)
     :: (if verbose
         then [Log DEBUG (MsgFileSkipped file1 (length (skipped_lines r1)));
               Log DEBUG (MsgFileSkipped file2 (length (skipped_lines r2)))]
         else [])
     ++ ts
     ++ match rs with
        | Done _ => [Log INFO MsgCompareDone]
        | Raised e => [handler_event e]
        | Exited _ => []
        end,
     match rs with
     | Done _ => Done tt
     | Raised _ => Exited 1
     | Exited c => Exited c
     end).
Proof.
  intros V1 V2 R1 R2 E S.
  unfold compare_files. rewrite !validate_file_spec, V1, V2.
  cbn [bind ret app]. rewrite R1. cbn [bind]. rewrite R2.
  destruct verbose; cbn [bind log emit ret app]; rewrite E; cbn [bind ret app];
    rewrite S;
    (destruct rs as [[]|e|c]; [| destruct e |]);
    cbn [bind emit ret app try_except select is_FileNotFoundError
           is_ValueError is_Exception orb sys_exit handler_event];
    rewrite <- ?app_assoc; cbn [app]; rewrite ?app_nil_r; reflexivity.
Qed.

Lemma compare_files_parts w file1 file2 verbose show_tables :
  ∃ t1 r1 t2 r2 u1 u2 md ts rs,
    read_file w verbose file1 = (t1, Done r1)
    ∧ read_file w verbose file2 = (t2, Done r2)
    ∧ find_differences (data r1) (data r2) = Some (u1, u2, md)
    ∧ show_results w show_tables u1 u2 md = (ts, rs)
    ∧ List.filter is_print t1 = [] ∧ no_critical t1
    ∧ List.filter is_print t2 = [] ∧ no_critical t2
    ∧ no_critical ts.
Proof.
  destruct (read_file_prints_nothing w verbose file1)
    as (t1 & r1 & R1 & P1 & C1).
  destruct (read_file_prints_nothing w verbose file2)
    as (t2 & r2 & R2 & P2 & C2).
  destruct (find_differences_spec (data r1) (data r2))
    as (u1 & u2 & md & E & _).
  destruct (show_results_spec w show_tables u1 u2 md) as (ts & rs & S & Cs & _).
  by exists t1, r1, t2, r2, u1, u2, md, ts, rs.
Qed.

Lemma validation_cases w file1 file2 :
  (∃ e, validation w file1 = Some e
        ∨ (validation w file1 = None ∧ validation w file2 = Some e))
  ∨ (validation w file1 = None ∧ validation w file2 = None).
Proof.
  destruct (validation w file1) as [e|]; [left; exists e; by left|].
  destruct (validation w file2) as [e|]; [left; exists e; by right|].
  by right.
Qed.



(** X24.  The only way for [compare_files] to log at the critical level is
    an exception of [print], while it shows a table, that is neither a
    [FileNotFoundError] nor a [ValueError]. *)
Theorem X24_critical_only_from_the_console w file1 file2 verbose show_tables :
  existsb (logged_at CRITICAL)
    (trace (compare_files w file1 file2 verbose show_tables)) = true →
  show_tables = true
  ∧ ∃ e, print_error w = Some e
         ∧ is_FileNotFoundError e || is_ValueError e = false.
Proof.
  destruct (validation_cases w file1 file2) as [[e He]|[V1 V2]].
  - by rewrite (compare_files_invalid _ _ _ verbose show_tables _ He).
  - destruct (compare_files_parts w file1 file2 verbose show_tables)
      as (t1 & r1 & t2 & r2 & u1 & u2 & md & ts & rs
          & R1 & R2 & E & S & _ & C1 & _ & C2 & Cs).
    rewrite (compare_files_run _ _ _ _ _ _ _ _ _ _ _ _ _ _
               V1 V2 R1 R2 E S). cbn [trace fst].
    unfold no_critical in *.
    rewrite !existsb_app, C1, C2. cbn [orb existsb logged_at].
    rewrite !bool_decide_false by done. cbn [orb].
    rewrite existsb_app.
    assert (existsb (logged_at CRITICAL)
              (if verbose
               then [Log DEBUG
                       (MsgFileSkipped file1 (length (skipped_lines r1)));
                     Log DEBUG
                       (MsgFileSkipped file2 (length (skipped_lines r2)))]
               else []) = false) as -> by (by destruct verbose).
    rewrite existsb_app, Cs. cbn [orb].
    destruct (show_results_trace w show_tables u1 u2 md)
      as (_ & _ & Hraise & _).
    destruct rs as [[]|e|c]; [done| |done].
    destruct (Hraise ts e S) as (-> & Hp & _).
    unfold handler_event.
    destruct (is_FileNotFoundError e || is_ValueError e) eqn:Hc; [done|].
    intros _. split; [done|]. by exists e.
Qed.

Lemma X24_critical_only_from_the_console_witness :
  true = true
  ∧ ∃ e, print_error broken_console = Some e
         ∧ is_FileNotFoundError e || is_ValueError e = false.
Proof.
  apply (X24_critical_only_from_the_console broken_console
           (lit "a.txt") (lit "b.txt") false true).
  vm_compute. reflexivity.
Defined.

Lemma filter_tables_of u1 u2 md :
  List.filter is_print (tables_of u1 u2 md) = tables_of u1 u2 md.
Proof.
  unfold tables_of.
  by destruct (is_nonempty u1), (is_nonempty u2), (is_nonempty md).
Qed.

(** X25.  When both paths are valid and [print] does not raise, the tables
    on the console are, with the flag, one table for each of the three
    result lists that is not empty, in the order unique to file 1, unique
    to file 2, modified; without the flag there is none.  The lists are
    those of the two record sets [read_file] returns. *)
Theorem X25_tables_on_the_console w file1 file2 verbose show_tables :
  validation w file1 = None →
  validation w file2 = None →
  print_error w = None →
  ∃ r1 r2 u1 u2 md,
    result_of (read_file w verbose file1) = Done r1
    ∧ result_of (read_file w verbose file2) = Done r2
    ∧ find_differences (data r1) (data r2) = Some (u1, u2, md)
    ∧ List.filter is_print
        (trace (compare_files w file1 file2 verbose show_tables))
      = if show_tables then tables_of u1 u2 md else [].
Proof.
  intros V1 V2 Hp.
  destruct (compare_files_parts w file1 file2 verbose show_tables)
    as (t1 & r1 & t2 & r2 & u1 & u2 & md & ts & rs
        & R1 & R2 & E & S & P1 & _ & P2 & _).
  exists r1, r2, u1, u2, md.
  rewrite R1, R2. split; [done|]. split; [done|]. split; [done|].
  rewrite (compare_files_run _ _ _ _ _ _ _ _ _ _ _ _ _ _ V1 V2 R1 R2 E S).
  cbn [trace fst].
  destruct (show_results_trace w show_tables u1 u2 md)
    as (Hoff & Hon & _ & _).
  assert ((ts, rs) = ((if show_tables then tables_of u1 u2 md else []), Done tt))
    as [= -> ->].
  { rewrite <- S. destruct show_tables; [by apply Hon|by apply Hoff]. }
  rewrite !List.filter_app, P1, P2. cbn [app List.filter is_print].
  rewrite List.filter_app.
  assert (List.filter is_print
            (if verbose
             then [Log DEBUG
                     (MsgFileSkipped file1 (length (skipped_lines r1)));
                   Log DEBUG
                     (MsgFileSkipped file2 (length (skipped_lines r2)))]
             else []) = []) as -> by (by destruct verbose).
  rewrite List.filter_app. cbn [app List.filter is_print].
  rewrite app_nil_r. destruct show_tables; [apply filter_tables_of|done].
Qed.

Lemma X25_tables_on_the_console_witness :
  ∃ r1 r2 u1 u2 md,
    result_of (read_file two_exports false (lit "a.txt")) = Done r1
    ∧ result_of (read_file two_exports false (lit "b.txt")) = Done r2
    ∧ find_differences (data r1) (data r2) = Some (u1, u2, md)
    ∧ List.filter is_print
        (trace
           (compare_files two_exports (lit "a.txt") (lit "b.txt") false true))
      = if true then tables_of u1 u2 md else [].
Proof.
  apply (X25_tables_on_the_console two_exports (lit "a.txt") (lit "b.txt")
           false true); reflexivity.
Defined.

(** The two exports, compared with the flag for tables. *)
Example two_exports_tables :
  List.filter is_print
    (trace (compare_files two_exports (lit "a.txt") (lit "b.txt") false true))
  = [Print (Some (lit "Unikalne wiersze - Plik 1"))
       [[lit "002"; lit "Kowalska"; lit "Anna"; lit "HR"; lit "Lead";
         lit "False"]];
     Print (Some (lit "Zmodyfikowane wiersze"))
       [[lit "001"; lit "Nowak"; lit "Jan"; lit "IT"; lit "Dev";
         lit "True"]]].
Proof. by vm_compute. Qed.

End CompareMore.

(** ** Reading the Normalizer's output again, exactly *)

Section RoundTripExact.

Import Normalizer Samples.

Variable header : str.

Lemma lstrip_snoc s c :
  lstrip (s ++ [c])
  = match lstrip s with
    | [] => if isspace c then [] else [c]
    | _ => lstrip s ++ [c]
    end.
Proof.
  induction s as [|a s IH]; [done|].
  simpl. destruct (isspace a); [exact IH|done].
Qed.

Lemma strip_snoc_space s c : isspace c = true → strip (s ++ [c]) = strip s.
Proof.
  intros Hc. unfold strip. rewrite lstrip_snoc, Hc.
  destruct (lstrip s) as [|x r]; [done|].
  by apply rstrip_snoc_space.
Qed.

Lemma length_retab s : ∀ b, (length (retab b s) ≤ length s)%nat.
Proof.
  induction s as [|c r IH]; intros b; [done|].
  rewrite retab_cons. simpl.
  destruct (b && (c =? SPACE)); [specialize (IH true); lia|].
  destruct (c =? TAB); [specialize (IH false); simpl; lia|].
  destruct ((c =? SPACE) && starts_with_space r);
    [specialize (IH true)|specialize (IH false)]; simpl; lia.
Qed.

Lemma strip_same_length s :
  (length s ≤ length (strip s))%nat → strip s = s.
Proof.
  destruct (strip_decomp s) as (p & q & Hs & _). intros Hl.
  assert (length s = length p + length (strip s) + length q)%nat as Hlen.
  { rewrite Hs at 1. rewrite !length_app. lia. }
  destruct p; [|simpl in Hlen; lia].
  destruct q; [|simpl in Hlen; lia].
  simpl in Hs. by rewrite app_nil_r in Hs.
Qed.

Lemma table_rows content :
  Forall table_row (table (process_file_content content header)).
Proof.
  rewrite table_spec. apply Forall_forall. intros row Hrow%list_elem_of_In.
  apply in_map_iff in Hrow as (line & <- & [_ Ha]%filter_In).
  apply accepts_inv in Ha as [_ Hn].
  split; [by rewrite length_fields_of|].
  split; [apply fields_of_tab_free|apply fields_of_unquoted].
Qed.

Lemma join_tab_quote_free row :
  Forall quote_free row → quote_free (join_tab row).
Proof.
  intros Hq [H|(f & Hf & Hc)]%join_tab_elem; [done|].
  rewrite Forall_forall in Hq. by apply (Hq f).
Qed.

Lemma map_unquote_id row : Forall quote_free row → List.map unquote row = row.
Proof.
  induction 1 as [|f row Hf _ IH]; [done|].
  simpl. by rewrite IH, unquote_id.
Qed.

(** A written line that is read back as it is, is accepted with its row
    and written again unchanged. *)
Lemma reads_back_accepted row :
  table_row row →
  reads_back header (join_tab row) →
  accepts header (join_tab row ++ [LF]) = true
  ∧ fields_of (strip (join_tab row ++ [LF])) = row
  ∧ output_line (join_tab row ++ [LF]) = join_tab row ++ [LF].
Proof.
  intros (Hn & Ht & Hq) (Hs & Hd & Hh).
  assert (strip (join_tab row ++ [LF]) = join_tab row) as Hso.
  { rewrite strip_snoc_space by apply isspace_LF. exact Hs. }
  assert (fields_of (join_tab row) = row) as Hf.
  { unfold fields_of, re_split.
    rewrite split_from_no_double_space by done.
    rewrite split_join_tab; [by apply map_unquote_id| |done].
    by destruct row. }
  split; [|split].
  - unfold accepts. rewrite Hso, Hf, Hn. rewrite andb_true_r.
    apply negb_true_iff. unfold is_header. by apply bool_decide_eq_false.
  - by rewrite Hso.
  - unfold output_line. by rewrite Hso, Hf.
Qed.

(** A written line that is accepted and written again unchanged is read
    back as it is. *)
Lemma accepted_reads_back row :
  table_row row →
  accepts header (join_tab row ++ [LF]) = true →
  output_line (join_tab row ++ [LF]) = join_tab row ++ [LF] →
  reads_back header (join_tab row).
Proof.
  intros (Hn & Ht & Hq) Ha Ho.
  pose proof (join_tab_quote_free row Hq) as Hqj.
  assert (strip (join_tab row ++ [LF]) = strip (join_tab row)) as Hso.
  { apply strip_snoc_space, isspace_LF. }
  unfold output_line in Ho. rewrite Hso in Ho.
  apply app_inj_tail in Ho as [Ho _].
  rewrite fields_of_quote_free in Ho by (by apply strip_quote_free).
  fold (retab false (strip (join_tab row))) in Ho.
  assert (strip (join_tab row) = join_tab row) as Hs.
  { apply strip_same_length. rewrite <- Ho at 1. apply length_retab. }
  rewrite Hs in Ho. split; [done|]. split; [by apply retab_fixed|].
  apply accepts_inv in Ha as [Hh _].
  intros E. apply Hh. rewrite <- E.
  by rewrite <- (sub_ws_strip (join_tab row ++ [LF])), Hso, Hs.
Qed.

Lemma reparse_rows rows :
  Forall table_row rows →
  let out := List.map (λ row, join_tab row ++ [LF]) rows in
  (Forall (λ row, reads_back header (join_tab row)) rows →
   List.filter (accepts header) out = out
   ∧ List.filter (λ l, negb (accepts header l)) out = []
   ∧ List.map output_line out = out
   ∧ List.map (λ l, fields_of (strip l)) out = rows)
  ∧ (List.map output_line (List.filter (accepts header) out) = out →
     Forall (λ row, reads_back header (join_tab row)) rows).
Proof.
  induction 1 as [|row rows Hrow Hrows IH]; [done|].
  simpl in *. destruct IH as [IH1 IH2]. split.
  - intros [Hb Hbs]%Forall_cons.
    destruct (reads_back_accepted row Hrow Hb) as (Ha & Hf & Ho).
    destruct (IH1 Hbs) as (H1 & H2 & H3 & H4).
    rewrite Ha. simpl. by rewrite H1, H2, H3, H4, Hf, Ho.
  - destruct (accepts header (join_tab row ++ [LF])) eqn:Ha.
    + simpl. intros [= Ho Hrest].
      apply Forall_cons. split; [by apply accepted_reads_back|by apply IH2].
    + intros E. apply (f_equal length) in E.
      rewrite length_map in E. simpl in E.
      pose proof (List.filter_length_le (accepts header)
                    (List.map (λ row, join_tab row ++ [LF]) rows)) as Hle.
      lia.
Qed.

End RoundTripExact.

Section RoundTripExactClaim.

Import Normalizer Samples.

(** C5 (amended).  Feeding the lines the Normalizer writes back through
    [process_file_content] yields the same output lines exactly when
    every written line, taken without its line feed, is left unchanged by
    stripping (it neither starts nor ends with whitespace), has no two
    spaces in a row and is not the header modulo whitespace; the second
    pass then accepts every line and yields the same rows.  This is the
    case whenever no input line holds a double quote. *)
Theorem C5_reparse_exactly_when_read_back content header :
  let r := process_file_content content header in
  let r' := process_file_content (cleaned_content r) header in
  (cleaned_content r' = cleaned_content r
   ↔ Forall (λ row, reads_back header (join_tab row)) (table r))
  ∧ (Forall (λ row, reads_back header (join_tab row)) (table r) →
     table r' = table r ∧ skipped_lines r' = [])
  ∧ (Forall quote_free content → cleaned_content r' = cleaned_content r).
Proof.
  simpl.
  pose proof (table_rows header content) as Hrows.
  destruct (reparse_rows header _ Hrows) as [Hif Honly].
  assert (cleaned_content (process_file_content content header)
          = List.map (λ row, join_tab row ++ [LF])
              (table (process_file_content content header))) as Hc.
  { rewrite cleaned_content_spec, table_spec. by rewrite List.map_map. }
  split; [split|split].
  - intros E. apply Honly. rewrite <- Hc.
    by rewrite cleaned_content_spec in E at 1.
  - intros Hb. destruct (Hif Hb) as (H1 & _ & H3 & _).
    rewrite cleaned_content_spec at 1. rewrite Hc. by rewrite H1, H3.
  - intros Hb. destruct (Hif Hb) as (H1 & H2 & _ & H4).
    rewrite table_spec at 1. rewrite skipped_lines_spec, Hc.
    by rewrite H1, H2, H4.
  - intros Hq.
    destruct (reparse_lines header content Hq) as (H1 & _ & H3 & _).
    rewrite !cleaned_content_spec. by rewrite H1, H3.
Qed.

(** A file whose every field is quoted is read back as it was written. *)
Lemma C5_reparse_exactly_when_read_back_witness :
  let r := process_file_content [header_line; all_quoted_line] expected_header in
  let r' := process_file_content (cleaned_content r) expected_header in
  table r' = table r ∧ skipped_lines r' = [].
Proof.
  apply (proj1 (proj2 (C5_reparse_exactly_when_read_back
                         [header_line; all_quoted_line] expected_header))).
  vm_compute. repeat constructor; vm_compute; congruence.
Defined.

End RoundTripExactClaim.
